(** * Hel kitesurfing forecast alert: a shallow embedding of
    [alert/check_forecast.py] and the properties of its analysis,
    notification and orchestration code. *)

From Stdlib Require Import ZArith QArith List String Ascii Lia.
From Stdlib Require Import Floats.SpecFloat.
From stdpp Require Import gmap strings list pretty.

Local Open Scope Z_scope.

(** ** Python values *)

(** A Python [float] is an IEEE 754 binary64 number: the Standard Library's
    axiom-free specification of binary floating point at precision 53 and
    maximal exponent 1024.  Multiplication rounds to nearest, ties to even,
    as the hardware does. *)
Module Float.

Definition float := spec_float.

Definition prec : Z := 53.
Definition emax : Z := 1024.

Definition mul (x y : float) : float := SFmul prec emax x y.

(** [x <= y] and [x == y] on floats: false as soon as one side is NaN. *)
Definition leb (x y : float) : bool := SFleb x y.
Definition eqb (x y : float) : bool := SFeqb x y.

(** The mathematical order the comparison decides. *)
Definition le (x y : float) : Prop :=
  SFcompare x y = Some Lt ∨ SFcompare x y = Some Eq.

Definition is_finite (x : float) : bool :=
  match x with
  | S754_zero _ | S754_finite _ _ _ => true
  | S754_infinity _ | S754_nan => false
  end.

Definition is_nan (x : float) : bool :=
  match x with S754_nan => true | _ => false end.

(** The rational a finite float denotes. *)
Definition to_Q (x : float) : option Q :=
  match x with
  | S754_zero _ => Some 0%Q
  | S754_finite s m e =>
      let v := match e with
               | Z0 => inject_Z (Zpos m)
               | Zpos p => inject_Z (Zpos m * 2 ^ Zpos p)
               | Zneg p => Qmake (Zpos m) (2 ^ p)%positive
               end in
      Some (if s then Qopp v else v)
  | _ => None
  end.

Definition zero : float := S754_zero false.
(** [10.0] is [0x1.4p+3]. *)
Definition ten : float := S754_finite false 0x14000000000000 (-49).
Definition max_float : float := SFmax_float prec emax.

End Float.

Abbreviation float := Float.float.

(** The exceptions the program raises or lets through, one constructor per
    raising site.  In the source the first three are all [ValueError]s,
    told apart by their message. *)
Inductive exn :=
  | NoDataError                     (* ValueError("No hourly wind data available") *)
  | IsoformatError (t_iso : string) (* ValueError of datetime.fromisoformat *)
  | ConfigError                     (* ValueError("SMTP_HOST, EMAIL_FROM and EMAIL_TO must be set in environment") *)
  | EnvValueError (var : string)    (* ValueError of float()/int() in load_env *)
  | IndexError                      (* run[0] on an empty run *)
  | FetchError (msg : string)       (* anything requests raises in fetch_open_meteo *)
  | SendError (msg : string)        (* anything smtplib raises *)
  | SystemExit (code : Z).          (* sys.exit(code) *)

Inductive result (A : Type) :=
  | Ok (a : A)
  | Raise (e : exn).
Arguments Ok {A} a.
Arguments Raise {A} e.

(** A [datetime]: the proleptic Gregorian ordinal of its date (what
    [date.toordinal()] returns) and the second of the day. *)
Record datetime := { date : Z; second_of_day : Z }.

(** The standard-library functions the program calls and whose code is not
    part of the repository. *)
Class Library := {
  (** [dt.datetime.fromisoformat]; [None] when it raises [ValueError]. *)
  fromisoformat : string → option datetime;
  (** [date.isoformat()] of the date with the given ordinal. *)
  isoformat : Z → string;
  (** [str] of a float, as an f-string renders it. *)
  str_float : float → string;
  (** [float(s)] and [int(s)]; [None] when they raise [ValueError]. *)
  float_of_str : string → option float;
  int_of_str : string → option Z;
}.

(** ** Configuration *)

Record config := {
  LAT : float;
  LON : float;
  MIN_WIND_KNOTS : float;
  MAX_WIND_KNOTS : float;
  MIN_HOURS_PER_DAY : Z;
  REQUIRED_CONSECUTIVE_DAYS : Z;
  FORECAST_DAYS : Z;
  SMTP_HOST : option string;
  SMTP_PORT : option Z;
  SMTP_USER : option string;
  SMTP_PASSWORD : option string;
  EMAIL_FROM : option string;
  EMAIL_TO : option string;
}.

(** The decoded JSON reply: [data["hourly"]["time"]] and
    [data["hourly"]["windspeed_10m"]], each key possibly missing.  The
    timestamps are strings and the speeds are floats. *)
Record hourly_data := {
  time : option (list string);
  windspeed_10m : option (list float);
}.
Record forecast := { hourly : option hourly_data }.

(** ** Unit converter *)

(** The literal [1.94384449] denotes the double [0x1.f19fcae10f4f0p+0]. *)
Definition KNOTS_PER_MPS : float := S754_finite false 0x1f19fcae10f4f0 (-52).

Definition mps_to_knots (mps : float) : float := Float.mul mps KNOTS_PER_MPS.

(** ** Forecast analyzer *)

(** A day of the ordered window and a run of such days. *)
Abbreviation day := (Z * Z)%type.
Abbreviation run := (list day).

Section Analyzer.
Context `{Library}.

(** [data.get("hourly", {}).get(key, [])]. *)
Definition get_times (data : forecast) : list string :=
  match hourly data with
  | Some h => default [] (time h)
  | None => []
  end.
Definition get_speeds (data : forecast) : list float :=
  match hourly data with
  | Some h => default [] (windspeed_10m h)
  | None => []
  end.

(** [ok = cfg["MIN_WIND_KNOTS"] <= kts <= cfg["MAX_WIND_KNOTS"]]. *)
Definition in_window (cfg : config) (kts : float) : bool :=
  Float.leb (MIN_WIND_KNOTS cfg) kts && Float.leb kts (MAX_WIND_KNOTS cfg).

Definition qualifies (cfg : config) (sp : float) : bool :=
  in_window cfg (mps_to_knots sp).

(** One round of the aggregation loop on the dictionary [day_hours]:
    [setdefault(date, 0)], then the increment when the reading is in the
    window. *)
Definition count_reading (cfg : config) (d : Z) (sp : float)
    (day_hours : gmap Z Z) : gmap Z Z :=
  let day_hours :=
    match day_hours !! d with
    | Some _ => day_hours
    | None => <[d := 0]> day_hours
    end in
  if qualifies cfg sp
  then <[d := default 0 (day_hours !! d) + 1]> day_hours
  else day_hours.

(** [for t_iso, sp in zip(times, speeds)]: stops at the first timestamp
    that [fromisoformat] rejects. *)
Fixpoint aggregate (cfg : config) (readings : list (string * float))
    (day_hours : gmap Z Z) : result (gmap Z Z) :=
  match readings with
  | [] => Ok day_hours
  | (t_iso, sp) :: rest =>
      match fromisoformat t_iso with
      | None => Raise (IsoformatError t_iso)
      | Some t => aggregate cfg rest (count_reading cfg (date t) sp day_hours)
      end
  end.

(** [range(n)]: empty when [n] is not positive. *)
Definition range (n : Z) : list Z := seqZ 0 n.

(** The ordered list for the next [FORECAST_DAYS] days.  Adding
    [timedelta(days=i)] to a date adds [i] to its ordinal; the end of the
    calendar in year 9999 is not part of the model. *)
Definition build_ordered (cfg : config) (today : Z) (day_hours : gmap Z Z)
    : list day :=
  (λ i, let d := today + i in (d, default 0 (day_hours !! d)))
    <$> range (FORECAST_DAYS cfg).

(** The scan for runs of consecutive days, with its two accumulators. *)
Fixpoint scan_runs (cfg : config) (ordered : list day)
    (runs : list run) (current : run) : list run :=
  match ordered with
  | [] =>
      match current with
      | [] => runs
      | _ :: _ => runs ++ [current]
      end
  | (d, hours) :: rest =>
      if MIN_HOURS_PER_DAY cfg <=? hours
      then scan_runs cfg rest runs (current ++ [(d, hours)])
      else
        match current with
        | [] => scan_runs cfg rest runs []
        | _ :: _ => scan_runs cfg rest (runs ++ [current]) []
        end
  end.

Definition find_runs (cfg : config) (ordered : list day) : list run :=
  scan_runs cfg ordered [] [].

Definition long_enough (cfg : config) (r : run) : bool :=
  REQUIRED_CONSECUTIVE_DAYS cfg <=? Z.of_nat (length r).

Definition select_good (cfg : config) (runs : list run) : list run :=
  List.filter (long_enough cfg) runs.

(** [today] is what [dt.date.today()] returns during the call. *)
Definition analyze_forecast (today : Z) (data : forecast) (cfg : config)
    : result (list day * list run * list run) :=
  let times := get_times data in
  let speeds := get_speeds data in
  if bool_decide (times = []) || bool_decide (speeds = [])
  then Raise NoDataError
  else
    match aggregate cfg (zip times speeds) ∅ with
    | Raise e => Raise e
    | Ok day_hours =>
        let ordered := build_ordered cfg today day_hours in
        let runs := find_runs cfg ordered in
        let good_runs := select_good cfg runs in
        Ok (ordered, runs, good_runs)
    end.

End Analyzer.

(** ** Effects *)

(** The [EmailMessage] of [send_email]: its three headers and its text.
    A header assigned [None] is stored, not rejected. *)
Record message := {
  Subject : string;
  From : option string;
  To : option string;
  content : string;
}.

(** What the program does to the outside world, in order.  [EnterSendEmail]
    marks a call of [send_email]; the other events are the network and
    standard-output operations themselves. *)
Inductive event :=
  | HttpGet (url : string)
  | Print (text : string)
  | EnterSendEmail (subject body : string)
  | SmtpConnect (host : string) (port : Z)
  | SmtpEhlo
  | SmtpStartTls
  | SmtpLogin (user pwd : string)
  | SmtpSendMessage (msg : message)
  | SmtpQuit.

Definition is_smtp (ev : event) : bool :=
  match ev with
  | SmtpConnect _ _ | SmtpEhlo | SmtpStartTls | SmtpLogin _ _
  | SmtpSendMessage _ | SmtpQuit => true
  | _ => false
  end.

Definition is_network (ev : event) : bool :=
  match ev with
  | HttpGet _ => true
  | _ => is_smtp ev
  end.

Definition is_send_call (ev : event) : bool :=
  match ev with EnterSendEmail _ _ => true | _ => false end.

Definition stdout (trace : list event) : list string :=
  omap (λ ev, match ev with Print s => Some s | _ => None end) trace.

(** A computation logs its events and returns or raises. *)
Definition M (A : Type) : Type := list event * result A.

Definition ret {A} (a : A) : M A := ([], Ok a).
Definition raise {A} (e : exn) : M A := ([], Raise e).
Definition lift {A} (r : result A) : M A := ([], r).
Definition emit (ev : event) : M unit := ([ev], Ok tt).

Definition bind {A B} (m : M A) (k : A → M B) : M B :=
  match m with
  | (t, Ok a) => let '(t', r) := k a in (t ++ t', r)
  | (t, Raise e) => (t, Raise e)
  end.

Notation "'do' x <- m ; k" := (bind m (λ x, k))
  (at level 10, x name, m at level 100, k at level 200).
Notation "'do' ' p <- m ; k" := (bind m (λ x, match x with p => k end))
  (at level 10, p pattern, m at level 100, k at level 200).
Notation "m ;; k" := (bind m (λ _, k))
  (at level 100, k at level 200, right associativity).

(** [SystemExit] is not an [Exception]: [except Exception] lets it through. *)
Definition is_Exception (e : exn) : bool :=
  match e with SystemExit _ => false | _ => true end.

(** [try: body / except Exception as e: handler e]. *)
Definition try_except {A} (body : M A) (handler : exn → M A) : M A :=
  match body with
  | (t, Raise e) =>
      if is_Exception e then let '(t', r) := handler e in (t ++ t', r)
      else (t, Raise e)
  | _ => body
  end.

(** Leaving a [with] block: [__exit__] runs after the body whether it
    returned or raised, and an exception of [__exit__] itself replaces the
    outcome of the body. *)
Definition finally {A} (body : M A) (cleanup : M unit) : M A :=
  match body, cleanup with
  | (t, r), (t', Ok _) => (t ++ t', r)
  | (t, _), (t', Raise e) => (t ++ t', Raise e)
  end.

Definition print (text : string) : M unit := emit (Print text).
Definition sys_exit {A} (code : Z) : M A := raise (SystemExit code).

Fixpoint for_each {A} (l : list A) (body : A → M unit) : M unit :=
  match l with
  | [] => ret tt
  | x :: rest => body x ;; for_each rest body
  end.

(** The exit status the interpreter reports: [0] after a normal return, the
    code of a [SystemExit], [1] after any other uncaught exception. *)
Definition exit_status {A} (r : result A) : Z :=
  match r with
  | Ok _ => 0
  | Raise (SystemExit code) => code
  | Raise _ => 1
  end.

(** Truth value of an optional string: neither [None] nor empty. *)
Definition truthy (o : option string) : bool :=
  match o with
  | Some s => negb (bool_decide (s = ""%string))
  | None => false
  end.

Definition str_opt (o : option string) : string := default "None"%string o.

(** [str(e)].  [main] only prints the exceptions of the fetch and of the
    send, whose text is the message they carry or the one of line 118;
    the other texts are never printed. *)
Definition str_exn (e : exn) : string :=
  match e with
  | NoDataError => "No hourly wind data available"
  | IsoformatError t => "Invalid isoformat string: " +:+ t
  | ConfigError => "SMTP_HOST, EMAIL_FROM and EMAIL_TO must be set in environment"
  | EnvValueError var => "invalid value for " +:+ var
  | IndexError => "list index out of range"
  | FetchError msg => msg
  | SendError msg => msg
  | SystemExit code => pretty code
  end.

(** The outside world of one invocation. *)
Record smtp_server := {
  accepts_connection : bool;
  answers_ehlo : bool;
  advertises_starttls : bool;
  starttls_succeeds : bool;
  answers_ehlo_after_tls : bool;
  accepts_login : bool;
  accepts_message : bool;
  answers_quit : bool;
}.

Record world := {
  environ : string → option string;
  http_reply : string → string + forecast;
  clock_today : Z;
  smtp : smtp_server;
}.

Record arguments := { dry_run : bool }.

Section Program.
Context `{Library}.

(** ** Configuration loading *)

(** [float(os.getenv(var, dflt))] and [int(os.getenv(var, dflt))]. *)
Definition env_float (env : string → option string) (var dflt : string)
    : M float :=
  match float_of_str (default dflt (env var)) with
  | Some x => ret x
  | None => raise (EnvValueError var)
  end.

Definition env_int (env : string → option string) (var dflt : string)
    : M Z :=
  match int_of_str (default dflt (env var)) with
  | Some n => ret n
  | None => raise (EnvValueError var)
  end.

Definition load_env (env : string → option string) : M config :=
  do lat <- env_float env "LAT" "54.6806";
  do lon <- env_float env "LON" "18.5591";
  do min_knots <- env_float env "MIN_WIND_KNOTS" "12";
  do max_knots <- env_float env "MAX_WIND_KNOTS" "30";
  do min_hours <- env_int env "MIN_HOURS_PER_DAY" "6";
  do required <- env_int env "REQUIRED_CONSECUTIVE_DAYS" "2";
  do days <- env_int env "FORECAST_DAYS" "7";
  do port <- (if truthy (env "SMTP_PORT"%string)
              then do p <- env_int env "SMTP_PORT" "587"; ret (Some p)
              else ret None);
  ret {| LAT := lat; LON := lon;
         MIN_WIND_KNOTS := min_knots; MAX_WIND_KNOTS := max_knots;
         MIN_HOURS_PER_DAY := min_hours;
         REQUIRED_CONSECUTIVE_DAYS := required;
         FORECAST_DAYS := days;
         SMTP_HOST := env "SMTP_HOST"%string;
         SMTP_PORT := port;
         SMTP_USER := env "SMTP_USER"%string;
         SMTP_PASSWORD := env "SMTP_PASSWORD"%string;
         EMAIL_FROM := env "EMAIL_FROM"%string;
         EMAIL_TO := env "EMAIL_TO"%string |}.

(** ** Forecast client *)

Definition forecast_url (lat lon : float) (days : Z) : string :=
  "https://api.open-meteo.com/v1/forecast"
  +:+ "?latitude=" +:+ str_float lat +:+ "&longitude=" +:+ str_float lon
  +:+ "&hourly=windspeed_10m"
  +:+ "&timezone=Europe/Warsaw&forecast_days=" +:+ pretty days.

(** One GET; a failed request, a bad status or a body that is not JSON
    raise. *)
Definition fetch_open_meteo (w : world) (lat lon : float) (days : Z)
    : M forecast :=
  let url := forecast_url lat lon days in
  emit (HttpGet url) ;;
  match http_reply w url with
  | inl msg => raise (FetchError msg)
  | inr data => ret data
  end.

(** ** Report formatter *)

Definition newline : string := String "010"%char EmptyString.

(** ["\n".join(lines)]. *)
Fixpoint join_lines (lines : list string) : string :=
  match lines with
  | [] => ""
  | [l] => l
  | l :: rest => l +:+ newline +:+ join_lines rest
  end.

Definition day_line (d : day) : string :=
  " - " +:+ isoformat d.1 +:+ ": " +:+ pretty d.2 +:+ "h".

(** The line of one run; [run[0]] raises on an empty run. *)
Definition run_line (r : run) : result string :=
  match head r, last r with
  | Some first, Some final =>
      Ok (" - " +:+ isoformat first.1 +:+ " to " +:+ isoformat final.1
          +:+ " (" +:+ pretty (Z.of_nat (length r)) +:+ " days)")
  | _, _ => Raise IndexError
  end.

Fixpoint run_lines (cfg : config) (runs : list run) : result (list string) :=
  match runs with
  | [] => Ok []
  | r :: rest =>
      if long_enough cfg r
      then match run_line r with
           | Raise e => Raise e
           | Ok l =>
               match run_lines cfg rest with
               | Raise e => Raise e
               | Ok ls => Ok (l :: ls)
               end
           end
      else run_lines cfg rest
  end.

Definition format_message (runs : list run) (ordered : list day)
    (cfg : config) : result string :=
  match run_lines cfg runs with
  | Raise e => Raise e
  | Ok matching =>
      Ok (join_lines
        ([ "Good kitesurfing forecast detected on Hel Peninsula" +:+ newline;
           "Forecast summary (date: good_hours):" ]
         ++ (day_line <$> ordered)
         ++ [ "";
              "Thresholds: " +:+ str_float (MIN_WIND_KNOTS cfg) +:+ "-"
                +:+ str_float (MAX_WIND_KNOTS cfg) +:+ " knots, min "
                +:+ pretty (MIN_HOURS_PER_DAY cfg) +:+ "h/day";
              "";
              "Matching runs:" ]
         ++ matching))
  end.

(** ** Notifier *)

Definition smtp_step (ev : event) (ok : bool) (failure : string) : M unit :=
  emit ev ;; if ok then ret tt else raise (SendError failure).

(** The body of the [with smtplib.SMTP(...) as s] block. *)
Definition smtp_session (srv : smtp_server) (user pwd : option string)
    (msg : message) : M unit :=
  try_except
    (smtp_step SmtpEhlo (answers_ehlo srv) "ehlo" ;;
     if advertises_starttls srv
     then smtp_step SmtpStartTls (starttls_succeeds srv) "starttls" ;;
          smtp_step SmtpEhlo (answers_ehlo_after_tls srv) "ehlo"
     else ret tt)
    (λ _, ret tt) ;;
  (if truthy user && truthy pwd
   then smtp_step (SmtpLogin (str_opt user) (str_opt pwd))
          (accepts_login srv) "login"
   else ret tt) ;;
  smtp_step (SmtpSendMessage msg) (accepts_message srv) "send_message".

Definition send_email (srv : smtp_server) (subject body : string)
    (cfg : config) : M unit :=
  emit (EnterSendEmail subject body) ;;
  let msg := {| Subject := subject; From := EMAIL_FROM cfg;
                To := EMAIL_TO cfg; content := body |} in
  let host := SMTP_HOST cfg in
  let port := match SMTP_PORT cfg with
              | Some p => if p =? 0 then 587 else p
              | None => 587
              end in
  let user := SMTP_USER cfg in
  let pwd := SMTP_PASSWORD cfg in
  if negb (truthy host) || negb (truthy (EMAIL_FROM cfg))
     || negb (truthy (EMAIL_TO cfg))
  then raise ConfigError
  else
    smtp_step (SmtpConnect (str_opt host) port)
      (accepts_connection srv) "connect" ;;
    finally (smtp_session srv user pwd msg)
      (smtp_step SmtpQuit (answers_quit srv) "quit").

(** ** Orchestrator *)

Definition alert_subject : string :=
  "Kitesurfing alert: good forecast on Hel Peninsula".

Definition summary_line (d : day) : string :=
  isoformat d.1 +:+ ": " +:+ pretty d.2 +:+ "h".

(** [main] once the command line is parsed into [args]. *)
Definition main (args : arguments) (w : world) : M unit :=
  do cfg <- load_env (environ w);
  do data <-
    try_except
      (fetch_open_meteo w (LAT cfg) (LON cfg) (FORECAST_DAYS cfg))
      (λ e, print ("Failed to fetch forecast: " +:+ str_exn e) ;;
            sys_exit 2);
  do '(ordered, runs, good_runs) <-
    lift (analyze_forecast (clock_today w) data cfg);
  match good_runs with
  | [] =>
      print "No suitable runs found. Summary:" ;;
      for_each ordered (λ d, print (summary_line d))
  | _ :: _ =>
      do body <- lift (format_message good_runs ordered cfg);
      let subject := alert_subject in
      if dry_run args
      then print subject ;; print body
      else
        try_except
          (send_email (smtp w) subject body cfg ;;
           print ("Alert email sent to " +:+ str_opt (EMAIL_TO cfg)))
          (λ e, print ("Failed to send email: " +:+ str_exn e) ;;
                sys_exit 3)
  end.

End Program.

(** ** A reference library

    An executable instance of [Library] for the inputs of the examples:
    the calendar arithmetic of [datetime] ([_ymd2ord], [_ord2ymd]),
    timestamps of the form [YYYY-MM-DDTHH:MM] that the forecast source
    emits, decimal integers, and short decimal literals for floats. *)
Module Reference.

Definition digit (c : ascii) : option Z :=
  let n := Z.of_nat (nat_of_ascii c) in
  if (48 <=? n) && (n <=? 57) then Some (n - 48) else None.

Fixpoint digits (s : string) (acc : Z) : option Z :=
  match s with
  | EmptyString => Some acc
  | String c rest =>
      match digit c with
      | Some d => digits rest (10 * acc + d)
      | None => None
      end
  end.

Definition number (s : string) : option Z :=
  match s with
  | EmptyString => None
  | _ => digits s 0
  end.

Definition int_of_str (s : string) : option Z :=
  match s with
  | String "-"%char rest => Z.opp <$> number rest
  | _ => number s
  end.

(** Calendar arithmetic, as in [datetime.py]. *)
Definition is_leap (y : Z) : bool :=
  (y mod 4 =? 0) && (negb (y mod 100 =? 0) || (y mod 400 =? 0)).

Definition days_in_month (y m : Z) : Z :=
  if m =? 2 then (if is_leap y then 29 else 28)
  else if (m =? 4) || (m =? 6) || (m =? 9) || (m =? 11) then 30
  else 31.

Definition days_before_month (y m : Z) : Z :=
  foldr (λ k acc, days_in_month y k + acc) 0 (Z.of_nat <$> seq 1 (Z.to_nat (m - 1))).

Definition days_before_year (y : Z) : Z :=
  let y := y - 1 in
  y * 365 + y / 4 - y / 100 + y / 400.

Definition ymd2ord (y m d : Z) : Z :=
  days_before_year y + days_before_month y m + d.

Definition ord2ymd (n : Z) : Z * Z * Z :=
  let n := n - 1 in
  let n400 := n / 146097 in
  let n := n mod 146097 in
  let n100 := n / 36524 in
  let n := n mod 36524 in
  let n4 := n / 1461 in
  let n := n mod 1461 in
  let n1 := n / 365 in
  let n := n mod 365 in
  let year := n400 * 400 + 1 + n100 * 100 + n4 * 4 + n1 in
  if (n1 =? 4) || (n100 =? 4) then (year - 1, 12, 31)
  else
    let month := (n + 50) / 32 in
    let preceding := days_before_month year month in
    if n <? preceding
    then (year, month - 1,
          n - (preceding - days_in_month year (month - 1)) + 1)
    else (year, month, n - preceding + 1).

Definition pad (width : nat) (n : Z) : string :=
  let s := pretty n in
  String.concat "" (replicate (width - String.length s) "0"%string) +:+ s.

Definition isoformat (ordinal : Z) : string :=
  let '(y, m, d) := ord2ymd ordinal in
  pad 4 y +:+ "-" +:+ pad 2 m +:+ "-" +:+ pad 2 d.

Definition field (s : string) (start len : nat) : option Z :=
  let f := String.substring start len s in
  if (String.length f =? len)%nat then number f else None.

Definition separator (s : string) (pos : nat) (c : ascii) : bool :=
  bool_decide (String.get pos s = Some c).

Definition fromisoformat (s : string) : option datetime :=
  y ← field s 0 4; m ← field s 5 2; d ← field s 8 2;
  hh ← field s 11 2; mm ← field s 14 2;
  if separator s 4 "-" && separator s 7 "-" && separator s 10 "T"
     && separator s 13 ":" && (String.length s =? 16)%nat
     && (1 <=? y) && (1 <=? m) && (m <=? 12)
     && (1 <=? d) && (d <=? days_in_month y m)
     && (hh <=? 23) && (mm <=? 59)
  then Some {| date := ymd2ord y m d; second_of_day := hh * 3600 + mm * 60 |}
  else None.

(** The double of an integer below [2^53] is exact. *)
Definition float_of_Z (n : Z) : float :=
  binary_normalize Float.prec Float.emax n 0 false.

(** [digits[.digits]] with at most 15 digits: numerator and power of ten
    are exact doubles, so their correctly rounded quotient is the double
    nearest to the literal. *)
Definition float_of_str (s : string) : option float :=
  let '(sign, body) :=
    match s with
    | String "-"%char rest => (true, rest)
    | _ => (false, s)
    end in
  let '(whole, frac) :=
    match String.index 0 "." body with
    | Some i => (String.substring 0 i body,
                 String.substring (S i) (String.length body - S i) body)
    | None => (body, ""%string)
    end in
  if (String.length whole =? 0)%nat
     || negb (String.length whole + String.length frac <=? 15)%nat
  then None
  else
    n ← digits (whole +:+ frac) 0;
    let x := SFdiv Float.prec Float.emax (float_of_Z n)
               (float_of_Z (10 ^ Z.of_nat (String.length frac))) in
    Some (if sign then SFopp x else x).

(** Exact on integer-valued doubles ([12.0]); any other value is shown
    as mantissa and binary exponent. *)
Definition str_float (x : float) : string :=
  match x with
  | S754_zero s => if s then "-0.0" else "0.0"
  | S754_infinity s => if s then "-inf" else "inf"
  | S754_nan => "nan"
  | S754_finite s m e =>
      (if s then "-" else "") +:+
      (if (0 <=? e) then pretty (Zpos m * 2 ^ e) +:+ ".0"
       else if Zpos m mod 2 ^ (- e) =? 0
            then pretty (Zpos m / 2 ^ (- e)) +:+ ".0"
            else pretty (Zpos m) +:+ "p" +:+ pretty e)
  end.

#[export] Instance library : Library :=
  Build_Library fromisoformat isoformat str_float float_of_str int_of_str.

End Reference.

(** ** Vocabulary of the properties *)

Section Vocabulary.
Context `{Library}.

(** Every timestamp the aggregation loop reaches is one [fromisoformat]
    accepts. *)
Definition timestamps_parse (readings : list (string * float)) : Prop :=
  Forall (λ r, is_Some (fromisoformat r.1)) readings.

(** The reading falls on date [d] and its speed is in the wind window. *)
Definition qualifying_on (cfg : config) (d : Z) (r : string * float) : bool :=
  match fromisoformat r.1 with
  | Some t => bool_decide (date t = d) && qualifies cfg r.2
  | None => false
  end.

(** The reading falls on date [d]. *)
Definition reading_on (d : Z) (r : string * float) : bool :=
  match fromisoformat r.1 with
  | Some t => bool_decide (date t = d)
  | None => false
  end.

(** The qualifying-hour count of date [d]: the number of readings of
    that date in the wind window. *)
Definition qualifying_hours (cfg : config) (d : Z)
    (readings : list (string * float)) : Z :=
  Z.of_nat (length (List.filter (qualifying_on cfg d) readings)).

(** The day at position [j] exists and meets the daily minimum. *)
Definition good_day_at (cfg : config) (ordered : list day) (j : nat) : bool :=
  match ordered !! j with
  | Some (_, hours) => MIN_HOURS_PER_DAY cfg <=? hours
  | None => false
  end.

(** Positions [i .. i+n-1] are a maximal contiguous block of good days:
    not empty, good throughout, and extended neither to the left nor to
    the right by a good day. *)
Definition maximal_run (cfg : config) (ordered : list day) (i n : nat) : Prop :=
  (0 < n)%nat
  ∧ (∀ j, (i ≤ j < i + n)%nat → good_day_at cfg ordered j = true)
  ∧ (∀ j, (j + 1 = i)%nat → good_day_at cfg ordered j = false)
  ∧ good_day_at cfg ordered (i + n) = false.

(** The days at positions [i .. i+n-1]. *)
Definition segment (ordered : list day) (span : nat * nat) : run :=
  take span.2 (drop span.1 ordered).

(** Spans listed from left to right, each ending before the next starts. *)
Definition spans_in_order (spans : list (nat * nat)) : Prop :=
  ∀ a b s t, (a < b)%nat → spans !! a = Some s → spans !! b = Some t →
    (s.1 + s.2 < t.1)%nat.

(** The three required notification settings are present. *)
Definition config_complete (cfg : config) : bool :=
  truthy (SMTP_HOST cfg) && truthy (EMAIL_FROM cfg) && truthy (EMAIL_TO cfg).

(** The address [main] fetches. *)
Definition url_of (cfg : config) : string :=
  forecast_url (LAT cfg) (LON cfg) (FORECAST_DAYS cfg).

(** Calls of [send_email] and messages handed to the server in a trace. *)
Definition send_calls (trace : list event) : nat :=
  length (List.filter is_send_call trace).

Definition is_delivery (ev : event) : bool :=
  match ev with SmtpSendMessage _ => true | _ => false end.

Definition deliveries (trace : list event) : nat :=
  length (List.filter is_delivery trace).

(** The outcomes of one invocation whose configuration is [cfg]. *)
Section Outcomes.
Variables (args : arguments) (w : world) (cfg : config).

Let trace := (main args w).1.
Let status := exit_status (main args w).2.

(** (a) The fetch fails: a message, status 2. *)
Definition fetch_failure_outcome : Prop :=
  ∃ msg,
    http_reply w (url_of cfg) = inl msg
    ∧ stdout trace = ["Failed to fetch forecast: " +:+ msg]
    ∧ send_calls trace = 0%nat
    ∧ status = 2.

(** (b) The fetch succeeds and there is no good run: the summary,
    status 0. *)
Definition no_good_runs_outcome : Prop :=
  ∃ data ordered runs,
    http_reply w (url_of cfg) = inr data
    ∧ analyze_forecast (clock_today w) data cfg = Ok (ordered, runs, [])
    ∧ stdout trace
      = "No suitable runs found. Summary:" :: (summary_line <$> ordered)
    ∧ send_calls trace = 0%nat
    ∧ status = 0.

(** (c) Good runs are found: the report is printed in dry-run mode and
    otherwise handed to [send_email], once; a failed send gives
    status 3. *)
Definition good_runs_outcome : Prop :=
  ∃ data ordered runs good_runs body,
    http_reply w (url_of cfg) = inr data
    ∧ analyze_forecast (clock_today w) data cfg
      = Ok (ordered, runs, good_runs)
    ∧ good_runs ≠ []
    ∧ format_message good_runs ordered cfg = Ok body
    ∧ if dry_run args
      then stdout trace = [alert_subject; body]
           ∧ send_calls trace = 0%nat ∧ status = 0
      else send_calls trace = 1%nat
           ∧ EnterSendEmail alert_subject body ∈ trace
           ∧ (deliveries trace ≤ 1)%nat
           ∧ match (send_email (smtp w) alert_subject body cfg).2 with
             | Ok _ =>
                 stdout trace
                 = ["Alert email sent to " +:+ str_opt (EMAIL_TO cfg)]
                 ∧ status = 0
             | Raise e =>
                 stdout trace = ["Failed to send email: " +:+ str_exn e]
                 ∧ status = 3
             end.

(** The analyzer raises: nothing handles the exception. *)
Definition analysis_error_outcome : Prop :=
  ∃ data e,
    http_reply w (url_of cfg) = inr data
    ∧ analyze_forecast (clock_today w) data cfg = Raise e
    ∧ main args w = ([HttpGet (url_of cfg)], Raise e)
    ∧ status = 1.

End Outcomes.

End Vocabulary.

(** Every event [m] logs satisfies [P] and every exception it raises
    satisfies [Q]. *)
Definition obeys {A} (P : event → Prop) (Q : exn → Prop) (m : M A) : Prop :=
  Forall P m.1 ∧ ∀ e, m.2 = Raise e → Q e.

(** The computation hands at most [n] messages to the server. *)
Definition delivers_at_most {A} (n : nat) (m : M A) : Prop :=
  (deliveries m.1 ≤ n)%nat.

Definition sending_failure (e : exn) : Prop := ∃ msg, e = SendError msg.
Definition fetching_failure (e : exn) : Prop := ∃ msg, e = FetchError msg.
Definition env_failure (e : exn) : Prop := ∃ var, e = EnvValueError var.

(** ** Sample inputs *)

Module Examples.
Import Reference.

(** [date(2024, 5, 1).toordinal()]. *)
Definition may_1 : Z := 739007.

(** The timestamp of hour [h] of the day with ordinal [d]. *)
Definition hour_stamp (d h : Z) : string :=
  isoformat d +:+ "T" +:+ pad 2 h +:+ ":00".

(** 8 m/s is about 15.6 knots, 1 m/s about 1.9 knots. *)
Definition breeze : float := float_of_Z 8.
Definition calm : float := float_of_Z 1.

(** The 24 readings of a day whose first [good] hours are windy. *)
Definition day_readings (d good : Z) : list (string * float) :=
  (λ h, (hour_stamp d h, if h <? good then breeze else calm)) <$> seqZ 0 24.

Definition readings_of (start : Z) (counts : list Z) : list (string * float) :=
  concat (imap (λ i good, day_readings (start + Z.of_nat i) good) counts).

Definition forecast_of (readings : list (string * float)) : forecast :=
  {| hourly := Some {| time := Some readings.*1;
                       windspeed_10m := Some readings.*2 |} |}.

Definition week_counts : list Z := [7; 8; 0; 9; 10; 0; 0].
Definition week : forecast := forecast_of (readings_of may_1 week_counts).

(** A week without a single windy hour. *)
Definition still_week : forecast :=
  forecast_of (readings_of may_1 [0; 0; 0; 0; 0; 0; 0]).

(** Two days on which every hour is windy. *)
Definition two_windy_days : forecast :=
  forecast_of (readings_of may_1 [24; 24]).

(** A reply whose hourly arrays are empty, and one without them. *)
Definition empty_reply : forecast :=
  {| hourly := Some {| time := Some []; windspeed_10m := Some [] |} |}.
Definition bare_reply : forecast := {| hourly := None |}.

(** More timestamps than speeds; the unmatched ones are not even dates. *)
Definition ragged : forecast :=
  {| hourly := Some {|
       time := Some ((readings_of may_1 [24; 24]).*1 ++ ["n/a"; "n/a"]);
       windspeed_10m := Some (readings_of may_1 [24; 24]).*2 |} |}.

(** The configuration of an empty environment. *)
Definition default_cfg : config := {|
  LAT := S754_finite false 7695610305762348 (-47);
  LON := S754_finite false 5223922240270736 (-48);
  MIN_WIND_KNOTS := float_of_Z 12;
  MAX_WIND_KNOTS := float_of_Z 30;
  MIN_HOURS_PER_DAY := 6;
  REQUIRED_CONSECUTIVE_DAYS := 2;
  FORECAST_DAYS := 7;
  SMTP_HOST := None; SMTP_PORT := None;
  SMTP_USER := None; SMTP_PASSWORD := None;
  EMAIL_FROM := None; EMAIL_TO := None |}.

Definition no_env : string → option string := λ _, None.

Definition mail_env : string → option string := λ var,
  if bool_decide (var = "SMTP_HOST") then Some "smtp.example.org"
  else if bool_decide (var = "EMAIL_FROM") then Some "alerts@example.org"
  else if bool_decide (var = "EMAIL_TO") then Some "kiter@example.org"
  else None.

Definition mail_cfg : config := {|
  LAT := LAT default_cfg; LON := LON default_cfg;
  MIN_WIND_KNOTS := float_of_Z 12;
  MAX_WIND_KNOTS := float_of_Z 30;
  MIN_HOURS_PER_DAY := 6;
  REQUIRED_CONSECUTIVE_DAYS := 2;
  FORECAST_DAYS := 7;
  SMTP_HOST := Some "smtp.example.org"; SMTP_PORT := None;
  SMTP_USER := None; SMTP_PASSWORD := None;
  EMAIL_FROM := Some "alerts@example.org";
  EMAIL_TO := Some "kiter@example.org" |}.

(** With [MIN_HOURS_PER_DAY=0] every day is a good day. *)
Definition lenient_env : string → option string := λ var,
  if bool_decide (var = "MIN_HOURS_PER_DAY") then Some "0" else None.

Definition lenient_cfg : config := {|
  LAT := LAT default_cfg; LON := LON default_cfg;
  MIN_WIND_KNOTS := float_of_Z 12;
  MAX_WIND_KNOTS := float_of_Z 30;
  MIN_HOURS_PER_DAY := 0;
  REQUIRED_CONSECUTIVE_DAYS := 2;
  FORECAST_DAYS := 7;
  SMTP_HOST := None; SMTP_PORT := None;
  SMTP_USER := None; SMTP_PASSWORD := None;
  EMAIL_FROM := None; EMAIL_TO := None |}.

(** A window whose lower bound is the speed in knots of 10 m/s. *)
Definition edge_cfg : config := {|
  LAT := LAT default_cfg; LON := LON default_cfg;
  MIN_WIND_KNOTS := mps_to_knots Float.ten;
  MAX_WIND_KNOTS := float_of_Z 30;
  MIN_HOURS_PER_DAY := 6;
  REQUIRED_CONSECUTIVE_DAYS := 2;
  FORECAST_DAYS := 7;
  SMTP_HOST := None; SMTP_PORT := None;
  SMTP_USER := None; SMTP_PASSWORD := None;
  EMAIL_FROM := None; EMAIL_TO := None |}.

Definition willing_server : smtp_server := {|
  accepts_connection := true; answers_ehlo := true;
  advertises_starttls := true; starttls_succeeds := true;
  answers_ehlo_after_tls := true; accepts_login := true;
  accepts_message := true; answers_quit := true |}.


(** The world on 1 May 2024 in which the forecast source answers
    [reply]. *)
Definition world_with (env : string → option string)
    (reply : string + forecast) (srv : smtp_server) : world :=
  {| environ := env; http_reply := λ _, reply;
     clock_today := may_1; smtp := srv |}.

End Examples.

(** ** Further vocabulary *)

Section MoreVocabulary.
Context `{Library}.

(** The day meets the daily minimum. *)
Definition good_day (cfg : config) (d : day) : bool :=
  MIN_HOURS_PER_DAY cfg <=? d.2.

(** The number of readings of date [d]. *)
Definition readings_on (d : Z) (readings : list (string * float)) : Z :=
  Z.of_nat (length (List.filter (reading_on d) readings)).

(** The reading falls on one of the [FORECAST_DAYS] dates from [today]. *)
Definition within_window (cfg : config) (today : Z) (r : string * float)
    : bool :=
  match fromisoformat r.1 with
  | Some t => (today <=? date t) && (date t <? today + FORECAST_DAYS cfg)
  | None => false
  end.

(** The port [send_email] connects to: [cfg["SMTP_PORT"] or 587]. *)
Definition port_of (cfg : config) : Z :=
  match SMTP_PORT cfg with
  | Some p => if p =? 0 then 587 else p
  | None => 587
  end.

(** Both credentials are present: [user and pwd]. *)
Definition has_credentials (cfg : config) : bool :=
  truthy (SMTP_USER cfg) && truthy (SMTP_PASSWORD cfg).


(** The message [send_email] builds. *)
Definition message_of (subject body : string) (cfg : config) : message :=
  {| Subject := subject; From := EMAIL_FROM cfg; To := EMAIL_TO cfg;
     content := body |}.

(** What an SMTP event may carry in a call of [send_email]. *)
Definition on_the_wire (subject body : string) (cfg : config) (ev : event)
    : Prop :=
  match ev with
  | SmtpConnect host port =>
      SMTP_HOST cfg = Some host ∧ host ≠ ""%string ∧ port = port_of cfg
  | SmtpLogin user pwd =>
      SMTP_USER cfg = Some user ∧ SMTP_PASSWORD cfg = Some pwd
      ∧ user ≠ ""%string ∧ pwd ≠ ""%string
  | SmtpSendMessage msg => msg = message_of subject body cfg
  | _ => True
  end.

Definition is_get (ev : event) : bool :=
  match ev with HttpGet _ => true | _ => false end.

Definition is_connect (ev : event) : bool :=
  match ev with SmtpConnect _ _ => true | _ => false end.

Definition is_login (ev : event) : bool :=
  match ev with SmtpLogin _ _ => true | _ => false end.

Definition is_starttls (ev : event) : bool :=
  match ev with SmtpStartTls => true | _ => false end.

Definition count (p : event → bool) (trace : list event) : nat :=
  length (List.filter p trace).

(** The numeric settings of [load_env], in the order it reads them. *)
Definition numeric_settings : list (string * string) :=
  [("LAT", "54.6806"); ("LON", "18.5591"); ("MIN_WIND_KNOTS", "12");
   ("MAX_WIND_KNOTS", "30")]%string.

Definition integer_settings : list (string * string) :=
  [("MIN_HOURS_PER_DAY", "6"); ("REQUIRED_CONSECUTIVE_DAYS", "2");
   ("FORECAST_DAYS", "7")]%string.

(** The environment gives every setting a value that [float] or [int]
    accepts, the default standing in for an unset variable. *)
Definition env_parses (env : string → option string) : Prop :=
  Forall (λ vd, is_Some (float_of_str (default vd.2 (env vd.1))))
    numeric_settings
  ∧ Forall (λ vd, is_Some (int_of_str (default vd.2 (env vd.1))))
      integer_settings
  ∧ (truthy (env "SMTP_PORT"%string) = true →
     is_Some (int_of_str (default "587"%string (env "SMTP_PORT"%string)))).

(** The line of a run names its first and last date and its length. *)
Definition line_of_run (r : run) (l : string) : Prop :=
  ∃ first final,
    head r = Some first ∧ last r = Some final
    ∧ l = (" - " +:+ isoformat first.1 +:+ " to " +:+ isoformat final.1
           +:+ " (" +:+ pretty (Z.of_nat (length r)) +:+ " days)")%string.

End MoreVocabulary.

(** ** Further sample inputs *)

Module MoreExamples.
Import Reference Examples.

(** The default configuration with other day thresholds. *)
Definition with_days (min_hours required days : Z) : config := {|
  LAT := LAT default_cfg; LON := LON default_cfg;
  MIN_WIND_KNOTS := MIN_WIND_KNOTS default_cfg;
  MAX_WIND_KNOTS := MAX_WIND_KNOTS default_cfg;
  MIN_HOURS_PER_DAY := min_hours;
  REQUIRED_CONSECUTIVE_DAYS := required;
  FORECAST_DAYS := days;
  SMTP_HOST := None; SMTP_PORT := None;
  SMTP_USER := None; SMTP_PASSWORD := None;
  EMAIL_FROM := None; EMAIL_TO := None |}.

(** The wind window with its bounds swapped. *)
Definition swapped_cfg : config := {|
  LAT := LAT default_cfg; LON := LON default_cfg;
  MIN_WIND_KNOTS := MAX_WIND_KNOTS default_cfg;
  MAX_WIND_KNOTS := MIN_WIND_KNOTS default_cfg;
  MIN_HOURS_PER_DAY := 6;
  REQUIRED_CONSECUTIVE_DAYS := 2;
  FORECAST_DAYS := 7;
  SMTP_HOST := None; SMTP_PORT := None;
  SMTP_USER := None; SMTP_PASSWORD := None;
  EMAIL_FROM := None; EMAIL_TO := None |}.

(** Mail settings with credentials and the port left at 0. *)
Definition login_cfg : config := {|
  LAT := LAT default_cfg; LON := LON default_cfg;
  MIN_WIND_KNOTS := MIN_WIND_KNOTS default_cfg;
  MAX_WIND_KNOTS := MAX_WIND_KNOTS default_cfg;
  MIN_HOURS_PER_DAY := 6;
  REQUIRED_CONSECUTIVE_DAYS := 2;
  FORECAST_DAYS := 7;
  SMTP_HOST := Some "smtp.example.org"; SMTP_PORT := Some 0;
  SMTP_USER := Some "kite"; SMTP_PASSWORD := Some "secret";
  EMAIL_FROM := Some "alerts@example.org";
  EMAIL_TO := Some "kiter@example.org" |}.

(** The two windy days read backwards, with a day of readings before the
    window and one after it. *)
Definition shuffled_days : forecast :=
  forecast_of (reverse (readings_of may_1 [24; 24])
               ++ day_readings (may_1 - 1) 24
               ++ day_readings (may_1 + 7) 24).

(** A reply whose second timestamp is not a date. *)
Definition garbled : forecast :=
  {| hourly := Some {|
       time := Some ["2024-05-01T00:00"; "yesterday"; "n/a"]%string;
       windspeed_10m := Some [breeze; breeze; breeze] |} |}.

(** A latitude that is not a number. *)
Definition bad_env : string → option string := λ var,
  if bool_decide (var = "LAT"%string) then Some "north"%string else None.

(** A server without EHLO or STARTTLS that accepts mail all the same. *)
Definition plain_server : smtp_server := {|
  accepts_connection := true; answers_ehlo := false;
  advertises_starttls := false; starttls_succeeds := false;
  answers_ehlo_after_tls := false; accepts_login := true;
  accepts_message := true; answers_quit := true |}.

(** A server that rejects the login. *)
Definition strict_server : smtp_server := {|
  accepts_connection := true; answers_ehlo := true;
  advertises_starttls := true; starttls_succeeds := true;
  answers_ehlo_after_tls := true; accepts_login := false;
  accepts_message := true; answers_quit := true |}.

End MoreExamples.

(** * Properties *)

(** ** Floats *)

Lemma shr_1_nonneg mrs : 0 ≤ shr_m mrs → 0 ≤ shr_m (shr_1 mrs).
Proof.
  destruct mrs as [m r s]; simpl.
  destruct m as [|p|p]; try destruct p; simpl; lia.
Qed.

Lemma iter_shr_1_nonneg p : ∀ mrs,
  0 ≤ shr_m mrs → 0 ≤ shr_m (SpecFloat.iter_pos shr_1 p mrs).
Proof.
  induction p as [p IH|p IH|]; simpl; intros mrs Hm.
  - apply IH, IH, shr_1_nonneg, Hm.
  - apply IH, IH, Hm.
  - apply shr_1_nonneg, Hm.
Qed.

Lemma shr_fexp_nonneg m e l :
  0 ≤ m → 0 ≤ shr_m (shr_fexp Float.prec Float.emax m e l).1.
Proof.
  intros Hm. unfold shr_fexp, shr.
  assert (Hr : 0 ≤ shr_m (shr_record_of_loc m l))
    by (destruct l as [|[]]; simpl; exact Hm).
  destruct (fexp _ _ _ - e); simpl; auto using iter_shr_1_nonneg.
Qed.

Lemma round_nearest_even_nonneg m l : 0 ≤ m → 0 ≤ round_nearest_even m l.
Proof.
  intros Hm. destruct l as [|[]]; simpl; try lia.
  destruct (Z.even m); lia.
Qed.

Lemma binary_round_aux_not_nan sx mx ex lx :
  0 ≤ mx →
  Float.is_nan (binary_round_aux Float.prec Float.emax sx mx ex lx) = false.
Proof.
  intros Hm. unfold binary_round_aux.
  pose proof (shr_fexp_nonneg mx ex lx Hm) as H1.
  destruct (shr_fexp _ _ mx ex lx) as [mrs' e']; simpl in H1.
  pose proof (shr_fexp_nonneg
    (round_nearest_even (shr_m mrs') (loc_of_shr_record mrs')) e' loc_Exact
    (round_nearest_even_nonneg _ _ H1)) as H2.
  destruct (shr_fexp _ _ _ e' loc_Exact) as [mrs'' e'']; simpl in H2.
  destruct (shr_m mrs''); [reflexivity| |lia].
  destruct (e'' <=? _); reflexivity.
Qed.

Lemma is_nan_mps_to_knots mps :
  Float.is_nan (mps_to_knots mps) = Float.is_nan mps.
Proof.
  destruct mps as [s|s| |s m e]; try reflexivity.
  apply binary_round_aux_not_nan. lia.
Qed.

Lemma eqb_cases (a b : float) :
  Float.eqb a b = true →
  a = b ∨ ∃ s1 s2, a = S754_zero s1 ∧ b = S754_zero s2.
Proof.
  unfold Float.eqb, SFeqb.
  destruct a as [s|s| |s m e], b as [s'|s'| |s' m' e']; simpl;
    try discriminate; try (destruct s; discriminate);
    try (destruct s'; discriminate).
  - right; eauto.
  - destruct s, s'; try discriminate; auto.
  - destruct s, s'; try discriminate;
      destruct (e ?= e') eqn:He; try discriminate;
      destruct (Pos.compare_cont Eq m m') eqn:Hm; try discriminate;
      apply Z.compare_eq in He; apply Pos.compare_eq in Hm; subst; auto.
Qed.

Lemma compare_eqb_l (a b c : float) :
  Float.eqb a b = true → SFcompare a c = SFcompare b c.
Proof.
  intros [->|(s1 & s2 & -> & ->)]%eqb_cases; [reflexivity|].
  destruct c; reflexivity.
Qed.

Lemma compare_eqb_r (a b c : float) :
  Float.eqb a b = true → SFcompare c a = SFcompare c b.
Proof.
  intros [->|(s1 & s2 & -> & ->)]%eqb_cases; [reflexivity|].
  destruct c; reflexivity.
Qed.

Lemma leb_refl (a : float) : Float.is_nan a = false → Float.leb a a = true.
Proof.
  unfold Float.leb, SFleb.
  destruct a as [s|s| |s m e]; simpl; try discriminate; intros _.
  - reflexivity.
  - destruct s; reflexivity.
  - rewrite Z.compare_refl.
    change (Pos.compare_cont Eq m m) with (Pos.compare m m).
    rewrite Pos.compare_refl. destruct s; reflexivity.
Qed.

Lemma eqb_not_nan (a b : float) :
  Float.eqb a b = true → Float.is_nan a = false ∧ Float.is_nan b = false.
Proof.
  unfold Float.eqb, SFeqb.
  destruct a, b; simpl; try discriminate; auto.
Qed.

Lemma leb_le (a b : float) : Float.leb a b = true ↔ Float.le a b.
Proof.
  unfold Float.leb, SFleb, Float.le.
  destruct (SFcompare a b) as [[]|]; split; intros Hc;
    try discriminate; auto; destruct Hc; discriminate.
Qed.

(** ** Unit converter *)

(** C9. The converter is multiplication by the double nearest to
    1.94384449 (they differ by at most 2^-53, half a unit in the last
    place), a function defined on every float that returns NaN only for a
    NaN argument; 0 m/s gives exactly 0 knots and 10 m/s gives a value
    between 19.4384 and 19.4385 knots. *)
Theorem mps_to_knots_spec :
  (∀ mps, mps_to_knots mps = Float.mul mps KNOTS_PER_MPS)
  ∧ (∃ c, Float.to_Q KNOTS_PER_MPS = Some c
        ∧ (194384449 # 100000000) - (1 # 2 ^ 53) <= c
        ∧ c <= (194384449 # 100000000) + (1 # 2 ^ 53))%Q
  ∧ (∀ mps, Float.is_nan (mps_to_knots mps) = Float.is_nan mps)
  ∧ mps_to_knots Float.zero = Float.zero
  ∧ (∃ v, Float.to_Q (mps_to_knots Float.ten) = Some v
        ∧ (194384 # 10000) <= v ∧ v <= (194385 # 10000))%Q.
Proof.
  split; [reflexivity|].
  split.
  { eexists; split; [reflexivity|].
    split; vm_compute; discriminate. }
  split; [exact is_nan_mps_to_knots|].
  split; [reflexivity|].
  eexists; split; [vm_compute; reflexivity|].
  split; vm_compute; discriminate.
Qed.

(** The product of the largest double overflows to infinity: conversion
    never fails, but a finite speed need not give a finite result. *)
Remark mps_to_knots_overflow :
  Float.is_finite Float.max_float = true
  ∧ mps_to_knots Float.max_float = S754_infinity false.
Proof. split; vm_compute; reflexivity. Qed.

(** ** Forecast analyzer *)

Section AnalyzerFacts.
Context `{Library}.

Lemma in_window_endpoint_min cfg kts :
  Float.eqb kts (MIN_WIND_KNOTS cfg) = true →
  Float.leb (MIN_WIND_KNOTS cfg) (MAX_WIND_KNOTS cfg) = true →
  in_window cfg kts = true.
Proof.
  intros Heq Hle. unfold in_window, Float.leb, SFleb in *.
  rewrite (compare_eqb_l _ _ _ Heq), (compare_eqb_r _ _ _ Heq).
  destruct (eqb_not_nan _ _ Heq) as [_ Hn].
  apply leb_refl in Hn. unfold Float.leb, SFleb in Hn.
  rewrite Hn, Hle. reflexivity.
Qed.

Lemma in_window_endpoint_max cfg kts :
  Float.eqb kts (MAX_WIND_KNOTS cfg) = true →
  Float.leb (MIN_WIND_KNOTS cfg) (MAX_WIND_KNOTS cfg) = true →
  in_window cfg kts = true.
Proof.
  intros Heq Hle. unfold in_window, Float.leb, SFleb in *.
  rewrite (compare_eqb_l _ _ _ Heq), (compare_eqb_r _ _ _ Heq).
  destruct (eqb_not_nan _ _ Heq) as [_ Hn].
  apply leb_refl in Hn. unfold Float.leb, SFleb in Hn.
  rewrite Hn, Hle. reflexivity.
Qed.

Lemma qualifies_iff cfg sp :
  qualifies cfg sp = true ↔
    Float.le (MIN_WIND_KNOTS cfg) (mps_to_knots sp)
    ∧ Float.le (mps_to_knots sp) (MAX_WIND_KNOTS cfg).
Proof.
  unfold qualifies, in_window.
  rewrite andb_true_iff, !leb_le. reflexivity.
Qed.

(** The aggregation loop *)

Lemma count_reading_lookup cfg d sp (m : gmap Z Z) d' :
  default 0 (count_reading cfg d sp m !! d')
  = default 0 (m !! d')
    + (if bool_decide (d = d') && qualifies cfg sp then 1 else 0).
Proof.
  unfold count_reading.
  destruct (qualifies cfg sp), (decide (d = d')) as [<-|Hne];
    destruct (m !! d) as [v|] eqn:Hd;
    rewrite ?bool_decide_eq_true_2, ?bool_decide_eq_false_2 by done;
    simpl; simplify_map_eq; simpl; lia.
Qed.

Lemma qualifying_hours_cons cfg d t_iso sp t rest :
  fromisoformat t_iso = Some t →
  qualifying_hours cfg d ((t_iso, sp) :: rest)
  = (if bool_decide (date t = d) && qualifies cfg sp then 1 else 0)
    + qualifying_hours cfg d rest.
Proof.
  intros Ht. unfold qualifying_hours; simpl.
  unfold qualifying_on at 1; simpl. rewrite Ht.
  destruct (bool_decide (date t = d) && qualifies cfg sp); simpl; lia.
Qed.

Lemma aggregate_counts cfg readings : ∀ (m m' : gmap Z Z),
  aggregate cfg readings m = Ok m' →
  ∀ d, default 0 (m' !! d) = default 0 (m !! d) + qualifying_hours cfg d readings.
Proof.
  induction readings as [|[t_iso sp] rest IH]; simpl; intros m m' Hagg d.
  - injection Hagg as <-. unfold qualifying_hours; simpl. lia.
  - destruct (fromisoformat t_iso) as [t|] eqn:Ht; [|discriminate].
    rewrite (IH _ _ Hagg d), count_reading_lookup.
    rewrite (qualifying_hours_cons _ _ _ _ _ _ Ht). lia.
Qed.

Lemma aggregate_total cfg readings : ∀ (m : gmap Z Z),
  timestamps_parse readings → ∃ m', aggregate cfg readings m = Ok m'.
Proof.
  induction readings as [|[t_iso sp] rest IH]; simpl; intros m Hwf.
  - eauto.
  - apply Forall_cons in Hwf as [[t Ht] Hrest]. simpl in Ht.
    rewrite Ht. apply IH, Hrest.
Qed.

Lemma aggregate_raises cfg readings : ∀ (m : gmap Z Z) e,
  aggregate cfg readings m = Raise e →
  ∃ t_iso, e = IsoformatError t_iso ∧ fromisoformat t_iso = None
           ∧ t_iso ∈ readings.*1.
Proof.
  induction readings as [|[t_iso sp] rest IH]; simpl; intros m e Hagg.
  - discriminate.
  - destruct (fromisoformat t_iso) as [t|] eqn:Ht.
    + destruct (IH _ _ Hagg) as (t' & -> & Hnone & Hin).
      exists t'. split_and!; auto. apply elem_of_cons; auto.
    + injection Hagg as <-. exists t_iso. split_and!; auto.
      apply elem_of_cons; auto.
Qed.

Lemma qualifying_hours_nonneg cfg d readings :
  0 ≤ qualifying_hours cfg d readings.
Proof. unfold qualifying_hours. lia. Qed.

Lemma qualifying_hours_absent cfg d readings :
  Forall (λ r, reading_on d r = false) readings →
  qualifying_hours cfg d readings = 0.
Proof.
  unfold qualifying_hours. induction 1 as [|r rest Hr _ IH]; [reflexivity|].
  simpl. unfold qualifying_on at 1. unfold reading_on in Hr.
  destruct (fromisoformat r.1); [rewrite Hr|]; simpl; exact IH.
Qed.

(** The ordered window *)

Lemma range_length n : length (range n) = Z.to_nat n.
Proof. apply length_seqZ. Qed.

Lemma range_lookup n (i : nat) :
  (i < Z.to_nat n)%nat → range n !! i = Some (Z.of_nat i).
Proof.
  intros Hi. unfold range. rewrite lookup_seqZ_lt by lia. f_equal; lia.
Qed.

Lemma build_ordered_length cfg today (m : gmap Z Z) :
  length (build_ordered cfg today m) = Z.to_nat (FORECAST_DAYS cfg).
Proof. unfold build_ordered. by rewrite length_fmap, range_length. Qed.

Lemma build_ordered_lookup cfg today (m : gmap Z Z) (i : nat) :
  (i < Z.to_nat (FORECAST_DAYS cfg))%nat →
  build_ordered cfg today m !! i
  = Some (today + Z.of_nat i, default 0 (m !! (today + Z.of_nat i))).
Proof.
  intros Hi. unfold build_ordered.
  rewrite list_lookup_fmap, range_lookup by done. reflexivity.
Qed.

Lemma build_ordered_dates cfg today (m : gmap Z Z) :
  (build_ordered cfg today m).*1
  = (λ i, today + i) <$> range (FORECAST_DAYS cfg).
Proof.
  unfold build_ordered. rewrite <- list_fmap_compose.
  apply list_fmap_ext. intros; reflexivity.
Qed.

End AnalyzerFacts.

(** ** Run detection *)

Section RunFacts.
Variable cfg : config.

Lemma scan_runs_acc ordered : ∀ runs current,
  scan_runs cfg ordered runs current
  = runs ++ scan_runs cfg ordered [] current.
Proof.
  induction ordered as [|[d hours] rest IH]; simpl; intros runs current.
  - destruct current; simpl; by rewrite ?app_nil_r.
  - destruct (MIN_HOURS_PER_DAY cfg <=? hours); [apply IH|].
    destruct current as [|x current]; [apply IH|].
    rewrite IH, (IH [_]). by rewrite app_assoc.
Qed.

Lemma good_day_at_lookup ordered j d hours :
  ordered !! j = Some (d, hours) →
  good_day_at cfg ordered j = (MIN_HOURS_PER_DAY cfg <=? hours).
Proof. intros Hj. unfold good_day_at. by rewrite Hj. Qed.

Lemma good_day_at_beyond ordered j :
  (length ordered ≤ j)%nat → good_day_at cfg ordered j = false.
Proof.
  intros Hj. unfold good_day_at. by rewrite lookup_ge_None_2.
Qed.

Lemma good_day_at_inside ordered j :
  good_day_at cfg ordered j = true → (j < length ordered)%nat.
Proof.
  intros Hg. destruct (decide (j < length ordered)%nat); [done|].
  rewrite good_day_at_beyond in Hg by lia. discriminate.
Qed.

(** The state of the scan after [k + c] days: the [c] days before the
    cursor are the pending run, and the day before them, if any, is not
    a good day.  The runs still to be emitted are the maximal blocks
    that start at position [k] or later. *)
Lemma scan_runs_spans full : ∀ rest k c current,
  drop (k + c) full = rest →
  take c (drop k full) = current →
  (k + c ≤ length full)%nat →
  (∀ j, (k ≤ j < k + c)%nat → good_day_at cfg full j = true) →
  (∀ j, (j + 1 = k)%nat → good_day_at cfg full j = false) →
  ∃ spans,
    scan_runs cfg rest [] current = segment full <$> spans
    ∧ spans_in_order spans
    ∧ ∀ i n, (i, n) ∈ spans ↔ maximal_run cfg full i n ∧ (k ≤ i)%nat.
Proof.
  induction rest as [|[d hours] rest IH];
    intros k c current Hrest Hcur Hlen Hgood Hleft.
  - (* end of the list: the pending run, if any, is the last block *)
    assert (Hend : (k + c = length full)%nat).
    { apply (f_equal length) in Hrest. rewrite length_drop in Hrest.
      simpl in Hrest. lia. }
    assert (Hclen : length current = c).
    { rewrite <- Hcur, length_take, length_drop. lia. }
    simpl. destruct current as [|x current].
    + exists []. split; [reflexivity|]. split.
      { intros a b s t _ Ha. by rewrite lookup_nil in Ha. }
      intros i n. split; [by intros ?%elem_of_nil|].
      intros [(Hn & Hin & _ & _) Hk].
      specialize (Hin i ltac:(lia)). apply good_day_at_inside in Hin.
      simpl in Hclen. lia.
    + exists [(k, c)]. split; [simpl; unfold segment; simpl; by rewrite Hcur|].
      split.
      { intros a b s t Hab Ha Hb. apply lookup_lt_Some in Hb.
        simpl in Hb. lia. }
      intros i n. rewrite list_elem_of_singleton. split.
      * intros [= -> ->]. split; [|lia].
        split_and!; auto; [simpl in Hclen; lia|].
        apply good_day_at_beyond. lia.
      * intros [(Hn & Hin & Hl & Hr) Hk].
        assert (i = k) as ->.
        { destruct (decide (i = k)) as [|Hne]; [done|].
          pose proof (good_day_at_inside _ _ (Hin i ltac:(lia))).
          specialize (Hl (i - 1)%nat ltac:(lia)).
          rewrite Hgood in Hl by lia. discriminate. }
        assert (n = c) as ->; [|done].
        destruct (decide (n = c)) as [|Hne]; [done|].
        destruct (decide (n < c)%nat).
        -- rewrite Hgood in Hr by lia. discriminate.
        -- pose proof (good_day_at_inside _ _ (Hin (k + c)%nat ltac:(lia))).
           lia.
  - (* one more day *)
    assert (Hx : full !! (k + c)%nat = Some (d, hours)).
    { pose proof (lookup_drop full (k + c) 0) as Hd.
      rewrite Hrest, Nat.add_0_r in Hd. done. }
    assert (Hrest' : drop (k + c + 1) full = rest).
    { rewrite <- (drop_drop full 1 (k + c)), Hrest. done. }
    assert (Hclen : length current = c).
    { rewrite <- Hcur, length_take, length_drop. lia. }
    pose proof (lookup_lt_Some _ _ _ Hx) as Hlt.
    pose proof (good_day_at_lookup _ _ _ _ Hx) as Hgx.
    simpl. destruct (MIN_HOURS_PER_DAY cfg <=? hours) eqn:Hh.
    + (* a good day extends the pending run *)
      destruct (IH k (S c) (current ++ [(d, hours)])) as (spans & ? & ? & ?).
      * rewrite <- Hrest'. f_equal. lia.
      * rewrite <- Hcur. apply take_S_r. by rewrite lookup_drop.
      * lia.
      * intros j Hj. destruct (decide (j = k + c)%nat) as [->|]; [done|].
        apply Hgood. lia.
      * done.
      * exists spans. done.
    + destruct current as [|x current].
      * (* a bad day with no pending run *)
        simpl in Hclen. subst c.
        destruct (IH (S k) 0%nat []) as (spans & Hs & Hord & Hiff).
        -- rewrite <- Hrest'. f_equal. lia.
        -- done.
        -- lia.
        -- intros j Hj. lia.
        -- intros j Hj. replace j with (k + 0)%nat by lia. done.
        -- exists spans. split_and!; [done..|].
           intros i n. rewrite Hiff. split; [intros [? ?]; split; [done|lia]|].
           intros [Hmax Hk]. split; [done|].
           destruct (decide (i = k)) as [->|]; [|lia].
           destruct Hmax as (Hn & Hin & _ & _).
           rewrite Nat.add_0_r in Hgx.
           rewrite (Hin k) in Hgx by lia. discriminate.
      * (* a bad day closes the pending run *)
        rewrite scan_runs_acc.
        destruct (IH (S (k + c)) 0%nat []) as (spans & Hs & Hord & Hiff).
        -- rewrite <- Hrest'. f_equal. lia.
        -- done.
        -- lia.
        -- intros j Hj. lia.
        -- intros j Hj. replace j with (k + c)%nat by lia. done.
        -- exists ((k, c) :: spans). split_and!.
           ++ simpl. rewrite Hs.
              change (segment full (k, c)) with (take c (drop k full)).
              by rewrite Hcur.
           ++ intros a b s t Hab Ha Hb.
              destruct b as [|b]; [lia|]. simpl in Hb.
              assert (Ht : (S (k + c) ≤ t.1)%nat).
              { apply list_elem_of_lookup_2 in Hb. destruct t as [ti tn].
                apply Hiff in Hb as [_ ?]. done. }
              destruct a as [|a]; simpl in Ha.
              ** injection Ha as <-. simpl. lia.
              ** apply (Hord a b); [lia|done..].
           ++ intros i n. rewrite elem_of_cons, Hiff. split.
              ** intros [[= -> ->]|[Hmax Hk]]; [|split; [done|lia]].
                 split; [|lia]. split_and!; auto.
                 simpl in Hclen. lia.
              ** intros [Hmax Hk].
                 destruct (decide (S (k + c) ≤ i)%nat); [by right|left].
                 destruct Hmax as (Hn & Hin & Hl & Hr).
                 assert (i = k) as ->.
                 { destruct (decide (i = k)) as [|Hne]; [done|].
                   destruct (decide (i = k + c)%nat) as [->|].
                   - rewrite (Hin (k + c)%nat) in Hgx by lia. discriminate.
                   - specialize (Hl (i - 1)%nat ltac:(lia)).
                     rewrite Hgood in Hl by lia. discriminate. }
                 assert (n = c) as ->; [|done].
                 destruct (decide (n = c)) as [|Hne]; [done|].
                 destruct (decide (n < c)%nat).
                 --- rewrite Hgood in Hr by lia. discriminate.
                 --- rewrite (Hin (k + c)%nat) in Hgx by lia. discriminate.
Qed.

Lemma find_runs_spans ordered :
  ∃ spans,
    find_runs cfg ordered = segment ordered <$> spans
    ∧ spans_in_order spans
    ∧ ∀ i n, (i, n) ∈ spans ↔ maximal_run cfg ordered i n.
Proof.
  destruct (scan_runs_spans ordered ordered 0%nat 0%nat [])
    as (spans & Hs & Hord & Hiff); try done; try lia.
  exists spans. split_and!; [done..|].
  intros i n. rewrite Hiff. split; [by intros [? _]|]. split; [done|lia].
Qed.

Lemma segment_lookup ordered i n (j : nat) x :
  segment ordered (i, n) !! j = Some x →
  (j < n)%nat ∧ ordered !! (i + j)%nat = Some x.
Proof.
  unfold segment; simpl. intros Hj.
  apply lookup_take_Some in Hj as [Hj ?]. by rewrite lookup_drop in Hj.
Qed.

Lemma find_runs_days_good ordered r d :
  r ∈ find_runs cfg ordered → d ∈ r → MIN_HOURS_PER_DAY cfg ≤ d.2.
Proof.
  destruct (find_runs_spans ordered) as (spans & -> & _ & Hiff).
  intros ([i n] & -> & Hin)%list_elem_of_fmap [j Hj]%list_elem_of_lookup.
  apply segment_lookup in Hj as [Hj Hx].
  apply Hiff in Hin as (_ & Hgood & _ & _).
  specialize (Hgood (i + j)%nat ltac:(lia)). destruct d as [d hours].
  rewrite (good_day_at_lookup _ _ _ _ Hx) in Hgood. simpl. lia.
Qed.

Lemma find_runs_nonempty ordered r :
  r ∈ find_runs cfg ordered → r ≠ [].
Proof.
  destruct (find_runs_spans ordered) as (spans & -> & _ & Hiff).
  intros ([i n] & -> & Hin)%list_elem_of_fmap.
  apply Hiff in Hin as (Hn & Hgood & _ & _).
  pose proof (good_day_at_inside _ _ (Hgood (i + (n - 1))%nat ltac:(lia))).
  intros Hnil. apply (f_equal length) in Hnil.
  unfold segment in Hnil; simpl in Hnil.
  rewrite length_take, length_drop in Hnil. simpl in Hnil. lia.
Qed.

Lemma select_good_elem runs r :
  r ∈ select_good cfg runs
  ↔ r ∈ runs ∧ REQUIRED_CONSECUTIVE_DAYS cfg ≤ Z.of_nat (length r).
Proof.
  unfold select_good, long_enough.
  rewrite !list_elem_of_In, filter_In, Z.leb_le. reflexivity.
Qed.

End RunFacts.

(** ** The analyzer as a whole *)

Section AnalyzerClaims.
Context `{Library}.

Lemma scan_runs_no_good_day cfg ordered : ∀ runs,
  Forall (λ d : day, d.2 < MIN_HOURS_PER_DAY cfg) ordered →
  scan_runs cfg ordered runs [] = runs.
Proof.
  induction ordered as [|[d hours] rest IH]; simpl; intros runs Hall.
  - reflexivity.
  - apply Forall_cons in Hall as [Hd Hrest]. simpl in Hd.
    destruct (Z.leb_spec (MIN_HOURS_PER_DAY cfg) hours); [lia|].
    apply IH, Hrest.
Qed.

Lemma analyze_forecast_no_data today data cfg :
  analyze_forecast today data cfg = Raise NoDataError
  ↔ get_times data = [] ∨ get_speeds data = [].
Proof.
  unfold analyze_forecast.
  destruct (decide (get_times data = [])) as [Ht|Ht];
    destruct (decide (get_speeds data = [])) as [Hs|Hs];
    rewrite ?(bool_decide_eq_true_2 _ Ht), ?(bool_decide_eq_false_2 _ Ht),
      ?(bool_decide_eq_true_2 _ Hs), ?(bool_decide_eq_false_2 _ Hs); simpl;
    try (split; [auto|reflexivity]).
  split; [|intros [?|?]; done].
  destruct (aggregate _ _ _) as [m|e] eqn:Hagg; [discriminate|].
  apply aggregate_raises in Hagg as (t & -> & _). discriminate.
Qed.

Lemma analyze_forecast_inv today data cfg ordered runs good_runs :
  analyze_forecast today data cfg = Ok (ordered, runs, good_runs) →
  get_times data ≠ [] ∧ get_speeds data ≠ []
  ∧ ∃ day_hours,
      aggregate cfg (zip (get_times data) (get_speeds data)) ∅ = Ok day_hours
      ∧ ordered = build_ordered cfg today day_hours
      ∧ runs = find_runs cfg ordered
      ∧ good_runs = select_good cfg runs.
Proof.
  unfold analyze_forecast.
  destruct (decide (get_times data = [])) as [Ht|Ht];
    destruct (decide (get_speeds data = [])) as [Hs|Hs];
    rewrite ?(bool_decide_eq_true_2 _ Ht), ?(bool_decide_eq_false_2 _ Ht),
      ?(bool_decide_eq_true_2 _ Hs), ?(bool_decide_eq_false_2 _ Hs); simpl;
    try discriminate.
  destruct (aggregate _ _ _) as [m|e] eqn:Hagg; [|discriminate].
  intros [= <- <- <-]. split_and!; auto. exists m. done.
Qed.

Lemma analyze_forecast_total today data cfg :
  get_times data ≠ [] → get_speeds data ≠ [] →
  timestamps_parse (zip (get_times data) (get_speeds data)) →
  ∃ day_hours,
    aggregate cfg (zip (get_times data) (get_speeds data)) ∅ = Ok day_hours
    ∧ analyze_forecast today data cfg
      = Ok (build_ordered cfg today day_hours,
            find_runs cfg (build_ordered cfg today day_hours),
            select_good cfg
              (find_runs cfg (build_ordered cfg today day_hours))).
Proof.
  intros Ht Hs Hwf. unfold analyze_forecast.
  rewrite (bool_decide_eq_false_2 _ Ht), (bool_decide_eq_false_2 _ Hs).
  destruct (aggregate_total cfg _ ∅ Hwf) as [m Hm].
  exists m. simpl. by rewrite Hm.
Qed.

(** Every entry of the ordered window carries the qualifying-hour count
    of its date. *)
Lemma build_ordered_counts cfg today readings (day_hours : gmap Z Z) (i : nat) :
  aggregate cfg readings ∅ = Ok day_hours →
  (i < Z.to_nat (FORECAST_DAYS cfg))%nat →
  build_ordered cfg today day_hours !! i
  = Some (today + Z.of_nat i,
          qualifying_hours cfg (today + Z.of_nat i) readings).
Proof.
  intros Hagg Hi. rewrite build_ordered_lookup by done.
  rewrite (aggregate_counts _ _ _ _ Hagg), lookup_empty. simpl.
  f_equal.
Qed.

Lemma build_ordered_elem cfg today readings (day_hours : gmap Z Z) d h :
  aggregate cfg readings ∅ = Ok day_hours →
  (d, h) ∈ build_ordered cfg today day_hours →
  h = qualifying_hours cfg d readings.
Proof.
  intros Hagg [i Hi]%list_elem_of_lookup.
  pose proof (lookup_lt_Some _ _ _ Hi) as Hlt.
  rewrite build_ordered_length in Hlt.
  rewrite (build_ordered_counts _ _ _ _ _ Hagg Hlt) in Hi.
  by injection Hi as <- <-.
Qed.

(** C1. The runs the analyzer returns are, from left to right, exactly
    the maximal contiguous blocks of the ordered window in which every
    day reaches [MIN_HOURS_PER_DAY]: a day below the threshold ends the
    pending run and belongs to no run, and the good runs are exactly the
    runs of at least [REQUIRED_CONSECUTIVE_DAYS] days.  For the counts
    7, 8, 0, 9, 10, 0, 0 and a minimum of 6 the runs are days 0-1 and
    days 3-4, both good when 2 consecutive days are required. *)
Theorem runs_are_maximal_blocks cfg :
  (∀ ordered,
     (∃ spans, find_runs cfg ordered = segment ordered <$> spans
               ∧ spans_in_order spans
               ∧ ∀ i n, (i, n) ∈ spans ↔ maximal_run cfg ordered i n)
     ∧ (∀ r d, r ∈ find_runs cfg ordered → d ∈ r →
               MIN_HOURS_PER_DAY cfg ≤ d.2)
     ∧ (∀ r, r ∈ select_good cfg (find_runs cfg ordered)
             ↔ r ∈ find_runs cfg ordered
               ∧ REQUIRED_CONSECUTIVE_DAYS cfg ≤ Z.of_nat (length r)))
  ∧ (∀ today data ordered runs good_runs,
       analyze_forecast today data cfg = Ok (ordered, runs, good_runs) →
       runs = find_runs cfg ordered ∧ good_runs = select_good cfg runs)
  ∧ (∀ d0 d1 d2 d3 d4 d5 d6,
       MIN_HOURS_PER_DAY cfg = 6 →
       find_runs cfg [(d0, 7); (d1, 8); (d2, 0); (d3, 9); (d4, 10);
                      (d5, 0); (d6, 0)]
       = [[(d0, 7); (d1, 8)]; [(d3, 9); (d4, 10)]]
       ∧ (REQUIRED_CONSECUTIVE_DAYS cfg = 2 →
          select_good cfg [[(d0, 7); (d1, 8)]; [(d3, 9); (d4, 10)]]
          = [[(d0, 7); (d1, 8)]; [(d3, 9); (d4, 10)]])).
Proof.
  split_and!.
  - intros ordered. split_and!.
    + apply find_runs_spans.
    + apply find_runs_days_good.
    + apply select_good_elem.
  - intros today data ordered runs good_runs Hok.
    by apply analyze_forecast_inv in Hok as (_ & _ & m & _ & _ & -> & ->).
  - intros d0 d1 d2 d3 d4 d5 d6 Hmin.
    unfold find_runs, select_good, long_enough; simpl. rewrite Hmin; simpl.
    split; [reflexivity|]. intros ->. reflexivity.
Qed.

(** C2. On a non-empty input with well-formed timestamps the analyzer
    returns an ordered list of [FORECAST_DAYS] entries (none when the
    horizon is not positive) whose dates are [today], [today + 1], ...
    without repetition or gap; each entry carries the qualifying-hour
    count of its date, which is 0 for a date without any reading. *)
Theorem ordered_window_spans_horizon today data cfg :
  get_times data ≠ [] → get_speeds data ≠ [] →
  timestamps_parse (zip (get_times data) (get_speeds data)) →
  ∃ ordered runs good_runs,
    analyze_forecast today data cfg = Ok (ordered, runs, good_runs)
    ∧ Z.of_nat (length ordered) = 0 `max` FORECAST_DAYS cfg
    ∧ (∀ i : nat, Z.of_nat i < FORECAST_DAYS cfg →
         ordered !! i
         = Some (today + Z.of_nat i,
                 qualifying_hours cfg (today + Z.of_nat i)
                   (zip (get_times data) (get_speeds data))))
    ∧ NoDup ordered.*1
    ∧ (∀ d h, (d, h) ∈ ordered →
         Forall (λ r, reading_on d r = false)
           (zip (get_times data) (get_speeds data)) →
         h = 0).
Proof.
  intros Ht Hs Hwf.
  destruct (analyze_forecast_total today data cfg Ht Hs Hwf) as (m & Hm & Hok).
  eexists _, _, _. split; [exact Hok|]. split_and!.
  - rewrite build_ordered_length. lia.
  - intros i Hi. apply build_ordered_counts; [done|lia].
  - rewrite build_ordered_dates. apply NoDup_fmap_2; [|apply NoDup_seqZ].
    intros x y ?. lia.
  - intros d h Hin Habsent.
    rewrite (build_ordered_elem cfg today _ m d h Hm Hin).
    by apply qualifying_hours_absent.
Qed.

(** C3. A reading qualifies exactly when its speed in knots lies between
    [MIN_WIND_KNOTS] and [MAX_WIND_KNOTS]; a speed equal to either bound
    of a non-empty window qualifies; and the count of a day is the number
    of its qualifying readings. *)
Theorem qualifying_window_inclusive cfg sp :
  (qualifies cfg sp = true
   ↔ Float.le (MIN_WIND_KNOTS cfg) (mps_to_knots sp)
     ∧ Float.le (mps_to_knots sp) (MAX_WIND_KNOTS cfg))
  ∧ (Float.leb (MIN_WIND_KNOTS cfg) (MAX_WIND_KNOTS cfg) = true →
     Float.eqb (mps_to_knots sp) (MIN_WIND_KNOTS cfg) = true
     ∨ Float.eqb (mps_to_knots sp) (MAX_WIND_KNOTS cfg) = true →
     qualifies cfg sp = true)
  ∧ (∀ today data ordered runs good_runs d h,
       analyze_forecast today data cfg = Ok (ordered, runs, good_runs) →
       (d, h) ∈ ordered →
       h = qualifying_hours cfg d (zip (get_times data) (get_speeds data))).
Proof.
  split_and!.
  - apply qualifies_iff.
  - intros Hle [Heq|Heq].
    + by apply in_window_endpoint_min.
    + by apply in_window_endpoint_max.
  - intros today data ordered runs good_runs d h Hok Hin.
    apply analyze_forecast_inv in Hok as (_ & _ & m & Hm & -> & _).
    exact (build_ordered_elem cfg today _ m d h Hm Hin).
Qed.

(** C5, amended. [NoDataError] is raised exactly when the timestamp array
    or the speed array is empty or missing, that is when there is no
    (timestamp, speed) pair at all.  An input with well-formed timestamps
    is analysed without error whatever its counts, and when
    [MIN_HOURS_PER_DAY] is at least 1 an ordered list of all-zero counts
    gives no run and no good run. *)
Theorem no_data_error_exactly_when_empty today data cfg :
  (analyze_forecast today data cfg = Raise NoDataError
   ↔ get_times data = [] ∨ get_speeds data = [])
  ∧ (analyze_forecast today data cfg = Raise NoDataError
     ↔ zip (get_times data) (get_speeds data) = [])
  ∧ (get_times data ≠ [] → get_speeds data ≠ [] →
     timestamps_parse (zip (get_times data) (get_speeds data)) →
     ∃ ordered runs good_runs,
       analyze_forecast today data cfg = Ok (ordered, runs, good_runs)
       ∧ (1 ≤ MIN_HOURS_PER_DAY cfg →
          Forall (λ d : day, d.2 = 0) ordered →
          runs = [] ∧ good_runs = [])).
Proof.
  split_and!.
  - apply analyze_forecast_no_data.
  - rewrite analyze_forecast_no_data. split.
    + intros [->| ->]; [apply zip_with_nil_l|apply zip_with_nil_r].
    + apply zip_with_nil_inv.
  - intros Ht Hs Hwf.
    destruct (analyze_forecast_total today data cfg Ht Hs Hwf) as (m & _ & Hok).
    eexists _, _, _. split; [exact Hok|].
    intros Hmin Hzero.
    assert (Hnone : find_runs cfg (build_ordered cfg today m) = []).
    { apply scan_runs_no_good_day.
      eapply Forall_impl; [exact Hzero|]. simpl. intros d ->. lia. }
    rewrite Hnone. done.
Qed.

(** C10. When both arrays are non-empty and of different lengths the
    analyzer reads the first [min (len times) (len speeds)] pairs and
    nothing else: provided those timestamps are well formed it returns,
    with the result it gives on the two arrays cut to that length, and
    its ordered list covers the whole horizon. *)
Theorem mismatched_lengths_are_truncated today data cfg :
  let times := get_times data in
  let speeds := get_speeds data in
  let n := (length times `min` length speeds)%nat in
  let trimmed := {| hourly := Some {| time := Some (take n times);
                                      windspeed_10m := Some (take n speeds) |} |} in
  times ≠ [] → speeds ≠ [] → length times ≠ length speeds →
  timestamps_parse (zip (take n times) (take n speeds)) →
  ∃ ordered runs good_runs,
    analyze_forecast today data cfg = Ok (ordered, runs, good_runs)
    ∧ analyze_forecast today trimmed cfg = Ok (ordered, runs, good_runs)
    ∧ zip times speeds = zip (take n times) (take n speeds)
    ∧ length (zip times speeds) = n
    ∧ Z.of_nat (length ordered) = 0 `max` FORECAST_DAYS cfg
    ∧ (∀ i : nat, Z.of_nat i < FORECAST_DAYS cfg →
         ordered !! i
         = Some (today + Z.of_nat i,
                 qualifying_hours cfg (today + Z.of_nat i)
                   (zip (take n times) (take n speeds)))).
Proof.
  intros times speeds n trimmed Ht Hs Hne Hwf.
  assert (Hzip : zip times speeds = zip (take n times) (take n speeds)).
  { symmetry. apply zip_with_take_both'; lia. }
  rewrite <- Hzip in Hwf.
  destruct (analyze_forecast_total today data cfg Ht Hs Hwf) as (m & Hm & Hok).
  fold times speeds in Hm. eexists _, _, _. split; [exact Hok|]. split_and!.
  - unfold analyze_forecast, trimmed, get_times, get_speeds; simpl.
    fold times speeds n.
    assert (Hn : (0 < n)%nat).
    { destruct times, speeds; simpl in *; try done; lia. }
    rewrite !bool_decide_eq_false_2.
    + simpl. rewrite <- Hzip, Hm. reflexivity.
    + intros Hnil. apply (f_equal length) in Hnil.
      rewrite length_take in Hnil. simpl in Hnil. lia.
    + intros Hnil. apply (f_equal length) in Hnil.
      rewrite length_take in Hnil. simpl in Hnil. lia.
  - exact Hzip.
  - apply length_zip_with.
  - rewrite build_ordered_length. lia.
  - intros i Hi. rewrite <- Hzip. apply build_ordered_counts; [done|lia].
Qed.

End AnalyzerClaims.

(** ** Computations: what they log and what they raise *)

Section Obeys.
Context {A B : Type} (P : event → Prop) (Q : exn → Prop).

Lemma obeys_ret (a : A) : obeys P Q (ret a).
Proof. split; [constructor|discriminate]. Qed.

Lemma obeys_lift_ok (a : A) : obeys P Q (lift (Ok a)).
Proof. split; [constructor|discriminate]. Qed.

Lemma obeys_raise e : Q e → obeys P Q (@raise A e).
Proof. intros He. split; [constructor|]. intros e' [= <-]. exact He. Qed.

Lemma obeys_emit ev : P ev → obeys P Q (emit ev).
Proof. intros Hev. split; [by repeat constructor|discriminate]. Qed.

Lemma obeys_bind (m : M A) (k : A → M B) :
  obeys P Q m → (∀ a, obeys P Q (k a)) → obeys P Q (bind m k).
Proof.
  unfold obeys. destruct m as [t [a|e]]; intros [Ht He] Hk; simpl in *.
  - destruct (Hk a) as [Hka Hke]. destruct (k a) as [t' r]; simpl in *.
    split; [by apply Forall_app_2|assumption].
  - split; [assumption|]. intros e' [= <-]. by apply He.
Qed.

Lemma obeys_try_except Q' (body : M A) (handler : exn → M A) :
  obeys P Q' body → (∀ e, Q' e → is_Exception e = true) →
  (∀ e, obeys P Q (handler e)) →
  obeys P Q (try_except body handler).
Proof.
  unfold obeys. destruct body as [t [a|e]]; intros [Ht He] Hexc Hh; simpl in *.
  - split; [done|discriminate].
  - rewrite (Hexc e (He e eq_refl)).
    destruct (Hh e) as [Hht Hhe]. destruct (handler e) as [t' r]; simpl in *.
    split; [by apply Forall_app_2|assumption].
Qed.

Lemma obeys_finally (body : M A) (cleanup : M unit) :
  obeys P Q body → obeys P Q cleanup → obeys P Q (finally body cleanup).
Proof.
  unfold obeys.
  destruct body as [t r], cleanup as [t' [[]|e']]; intros [Ht He] [Ht' He'];
    simpl in *; (split; [by apply Forall_app_2|]).
  - assumption.
  - intros e [= <-]. by apply He'.
Qed.

End Obeys.

Lemma obeys_weaken {A} (P P' : event → Prop) (Q Q' : exn → Prop) (m : M A) :
  obeys P Q m → (∀ ev, P ev → P' ev) → (∀ e, Q e → Q' e) → obeys P' Q' m.
Proof.
  intros [Ht He] HP HQ. split; [by eapply Forall_impl|]. eauto.
Qed.

Lemma obeys_for_each {A} P Q (l : list A) (body : A → M unit) :
  (∀ x, obeys P Q (body x)) → obeys P Q (for_each l body).
Proof.
  intros Hbody. induction l as [|x l IH]; simpl.
  - apply obeys_ret.
  - apply obeys_bind; auto.
Qed.

Lemma obeys_silent {A} Q (m : M A) : obeys (λ _, False) Q m → m.1 = [].
Proof. intros [Ht _]. destruct m.1; [done|]. by apply Forall_cons in Ht as []. Qed.

Lemma bind_nil_ok {A B} (a : A) (k : A → M B) : bind ([], Ok a) k = k a.
Proof. unfold bind. by destruct (k a). Qed.

Lemma bind_emit {A} ev (m : M A) : (emit ev ;; m) = (ev :: m.1, m.2).
Proof. unfold bind, emit. by destruct m. Qed.

Lemma for_each_print {A} (f : A → string) (l : list A) :
  for_each l (λ x, print (f x)) = ((λ x, Print (f x)) <$> l, Ok tt).
Proof.
  induction l as [|x l IH]; simpl; [reflexivity|]. by rewrite IH.
Qed.

Lemma stdout_prints (lines : list string) : stdout (Print <$> lines) = lines.
Proof.
  induction lines as [|l lines IH]; [done|].
  unfold stdout in *. simpl. f_equal. exact IH.
Qed.

(** ** Notifier *)

Section NotifierFacts.
Context `{Library}.

Lemma smtp_step_obeys ev ok failure :
  is_smtp ev = true →
  obeys (λ ev, is_smtp ev = true) sending_failure (smtp_step ev ok failure).
Proof.
  intros Hev. unfold smtp_step. apply obeys_bind; [by apply obeys_emit|].
  intros _. destruct ok; [apply obeys_ret|apply obeys_raise]. by eexists.
Qed.

Lemma smtp_session_obeys srv user pwd msg :
  obeys (λ ev, is_smtp ev = true) sending_failure
    (smtp_session srv user pwd msg).
Proof.
  unfold smtp_session.
  apply obeys_bind; [|intros _; apply obeys_bind; intros].
  - apply obeys_try_except with (Q' := sending_failure).
    + apply obeys_bind; [by apply smtp_step_obeys|]. intros _.
      destruct (advertises_starttls srv); [|apply obeys_ret].
      apply obeys_bind; [by apply smtp_step_obeys|]. intros _.
      by apply smtp_step_obeys.
    + by intros e [msg' ->].
    + intros e. apply obeys_ret.
  - destruct (truthy user && truthy pwd); [|apply obeys_ret].
    by apply smtp_step_obeys.
  - by apply smtp_step_obeys.
Qed.

Lemma send_email_incomplete srv subject body cfg :
  config_complete cfg = false →
  send_email srv subject body cfg
  = ([EnterSendEmail subject body], Raise ConfigError).
Proof.
  unfold config_complete, send_email. intros Hc.
  destruct (truthy (SMTP_HOST cfg)), (truthy (EMAIL_FROM cfg)),
    (truthy (EMAIL_TO cfg)); try discriminate; reflexivity.
Qed.

(** A call logs its entry and then, only if the configuration is
    complete, SMTP traffic. *)
Lemma send_email_shape srv subject body cfg :
  ∃ ts rs,
    send_email srv subject body cfg = (EnterSendEmail subject body :: ts, rs)
    ∧ Forall (λ ev, is_smtp ev = true) ts
    ∧ (config_complete cfg = false → ts = [])
    ∧ ∀ e, rs = Raise e → e = ConfigError ∨ sending_failure e.
Proof.
  destruct (config_complete cfg) eqn:Hc.
  - unfold config_complete in Hc. apply andb_true_iff in Hc as [Hc Hto].
    apply andb_true_iff in Hc as [Hhost Hfrom].
    unfold send_email. rewrite bind_emit, Hhost, Hfrom, Hto.
    cbn [negb orb].
    match goal with |- context [(_ :: ?m.1, _)] =>
      assert (Hm : obeys (λ ev, is_smtp ev = true) sending_failure m)
    end.
    { apply obeys_bind; [by apply smtp_step_obeys|]. intros _.
      apply obeys_finally; [apply smtp_session_obeys|by apply smtp_step_obeys]. }
    destruct Hm as [Hts Hrs].
    eexists _, _. split; [reflexivity|]. split_and!; auto. discriminate.
  - rewrite send_email_incomplete by done.
    exists [], (Raise ConfigError). split_and!; auto.
    intros e [= <-]. auto.
Qed.

(** C7. When the SMTP host, the sender or the recipient is missing or
    empty, [send_email] raises [ConfigError] having logged nothing but
    its own entry: no connection is opened.  Conversely any network
    event of a call is preceded by a successful validation. *)
Theorem send_email_validates_before_connecting srv subject body cfg :
  (truthy (SMTP_HOST cfg) = false ∨ truthy (EMAIL_FROM cfg) = false
   ∨ truthy (EMAIL_TO cfg) = false →
   send_email srv subject body cfg
   = ([EnterSendEmail subject body], Raise ConfigError)
   ∧ Forall (λ ev, is_network ev = false)
       (send_email srv subject body cfg).1)
  ∧ (Exists (λ ev, is_network ev = true) (send_email srv subject body cfg).1 →
     truthy (SMTP_HOST cfg) = true ∧ truthy (EMAIL_FROM cfg) = true
     ∧ truthy (EMAIL_TO cfg) = true).
Proof.
  split.
  - intros Hmiss.
    assert (Hc : config_complete cfg = false).
    { unfold config_complete.
      destruct Hmiss as [->|[->| ->]]; simpl;
        rewrite ?andb_false_r; reflexivity. }
    rewrite send_email_incomplete by done. split; [done|].
    simpl. by repeat constructor.
  - intros Hnet. destruct (config_complete cfg) eqn:Hc.
    + unfold config_complete in Hc. apply andb_true_iff in Hc as [Hc Hto].
      apply andb_true_iff in Hc as [Hhost Hfrom]. done.
    + rewrite send_email_incomplete in Hnet by done. simpl in Hnet.
      apply Exists_cons in Hnet as [Hnet|Hnet]; [discriminate|].
      by apply Exists_nil in Hnet.
Qed.

End NotifierFacts.

(** ** Orchestrator *)

Section OrchestratorFacts.
Context `{Library}.

Lemma env_float_obeys env var dflt :
  obeys (λ _, False) env_failure (env_float env var dflt).
Proof.
  unfold env_float. destruct (float_of_str _);
    [apply obeys_ret|apply obeys_raise; by eexists].
Qed.

Lemma env_int_obeys env var dflt :
  obeys (λ _, False) env_failure (env_int env var dflt).
Proof.
  unfold env_int. destruct (int_of_str _);
    [apply obeys_ret|apply obeys_raise; by eexists].
Qed.

Lemma load_env_obeys env : obeys (λ _, False) env_failure (load_env env).
Proof.
  unfold load_env.
  repeat (apply obeys_bind;
          [first [apply env_float_obeys | apply env_int_obeys | idtac]
          |intros ?]).
  - destruct (truthy _); [|apply obeys_ret].
    apply obeys_bind; [apply env_int_obeys|intros; apply obeys_ret].
  - apply obeys_ret.
Qed.

(** Loading the configuration logs nothing. *)
Lemma load_env_silent env : (load_env env).1 = [].
Proof. eapply obeys_silent, load_env_obeys. Qed.

Lemma analyze_forecast_raises today data cfg e :
  analyze_forecast today data cfg = Raise e →
  e = NoDataError ∨ ∃ t_iso, e = IsoformatError t_iso.
Proof.
  unfold analyze_forecast. destruct (_ || _); [intros [= <-]; auto|].
  destruct (aggregate _ _ _) as [m|e'] eqn:Hagg; [discriminate|].
  intros [= <-]. apply aggregate_raises in Hagg as (t & -> & _). eauto.
Qed.

(** The report of runs the analyzer found is always produced. *)
Lemma run_lines_total cfg runs :
  Forall (λ r : run, r ≠ []) runs → ∃ ls, run_lines cfg runs = Ok ls.
Proof.
  induction 1 as [|r runs Hr _ [ls IH]]; simpl; [eauto|].
  rewrite IH. destruct (long_enough cfg r); [|eauto].
  unfold run_line.
  destruct (proj2 (head_is_Some r) Hr) as [x ->].
  destruct (proj2 (last_is_Some r) Hr) as [y ->]. eauto.
Qed.

Lemma format_message_total cfg ordered runs :
  Forall (λ r : run, r ≠ []) runs →
  ∃ body, format_message runs ordered cfg = Ok body.
Proof.
  intros Hne. unfold format_message.
  destruct (run_lines_total cfg runs Hne) as [ls ->]. eauto.
Qed.

Lemma good_runs_nonempty today data cfg ordered runs good_runs :
  analyze_forecast today data cfg = Ok (ordered, runs, good_runs) →
  Forall (λ r : run, r ≠ []) good_runs.
Proof.
  intros (_ & _ & m & _ & _ & -> & ->)%analyze_forecast_inv.
  apply Forall_forall. intros r [Hr _]%select_good_elem.
  by eapply find_runs_nonempty.
Qed.

(** The paths through [main] *)

Lemma main_env_error args w t e :
  load_env (environ w) = (t, Raise e) → main args w = ([], Raise e).
Proof.
  intros Hl. pose proof (load_env_silent (environ w)) as Hs.
  rewrite Hl in Hs. simpl in Hs. subst t.
  unfold main. rewrite Hl. reflexivity.
Qed.

Lemma main_fetch_failure args w cfg msg :
  load_env (environ w) = ([], Ok cfg) →
  http_reply w (url_of cfg) = inl msg →
  main args w
  = ([HttpGet (url_of cfg); Print ("Failed to fetch forecast: " +:+ msg)],
     Raise (SystemExit 2)).
Proof.
  intros Hl Hr. unfold url_of in *. unfold main.
  rewrite Hl, bind_nil_ok. unfold fetch_open_meteo. cbv zeta. rewrite Hr. reflexivity.
Qed.

Lemma main_analysis_error args w cfg data e :
  load_env (environ w) = ([], Ok cfg) →
  http_reply w (url_of cfg) = inr data →
  analyze_forecast (clock_today w) data cfg = Raise e →
  main args w = ([HttpGet (url_of cfg)], Raise e).
Proof.
  intros Hl Hr Ha. unfold url_of in *. unfold main.
  rewrite Hl, bind_nil_ok. unfold fetch_open_meteo. cbv zeta. rewrite Hr.
  cbn -[analyze_forecast]. rewrite Ha. reflexivity.
Qed.

Lemma main_no_good_runs args w cfg data ordered runs :
  load_env (environ w) = ([], Ok cfg) →
  http_reply w (url_of cfg) = inr data →
  analyze_forecast (clock_today w) data cfg = Ok (ordered, runs, []) →
  main args w
  = (HttpGet (url_of cfg) :: Print "No suitable runs found. Summary:"
       :: ((λ d, Print (summary_line d)) <$> ordered),
     Ok tt).
Proof.
  intros Hl Hr Ha. unfold url_of in *. unfold main.
  rewrite Hl, bind_nil_ok. unfold fetch_open_meteo. cbv zeta. rewrite Hr.
  cbn -[analyze_forecast for_each]. rewrite Ha.
  cbn -[for_each]. rewrite for_each_print. reflexivity.
Qed.

Lemma main_dry_run w cfg data ordered runs good_runs body :
  load_env (environ w) = ([], Ok cfg) →
  http_reply w (url_of cfg) = inr data →
  analyze_forecast (clock_today w) data cfg = Ok (ordered, runs, good_runs) →
  good_runs ≠ [] →
  format_message good_runs ordered cfg = Ok body →
  main {| dry_run := true |} w
  = ([HttpGet (url_of cfg); Print alert_subject; Print body], Ok tt).
Proof.
  intros Hl Hr Ha Hg Hf. unfold url_of in *. unfold main.
  rewrite Hl, bind_nil_ok. unfold fetch_open_meteo. cbv zeta. rewrite Hr.
  cbn -[analyze_forecast format_message]. rewrite Ha.
  destruct good_runs as [|r good_runs]; [done|].
  cbn -[format_message]. rewrite Hf. reflexivity.
Qed.

Lemma main_send w cfg data ordered runs good_runs body ts rs :
  load_env (environ w) = ([], Ok cfg) →
  http_reply w (url_of cfg) = inr data →
  analyze_forecast (clock_today w) data cfg = Ok (ordered, runs, good_runs) →
  good_runs ≠ [] →
  format_message good_runs ordered cfg = Ok body →
  send_email (smtp w) alert_subject body cfg = (ts, rs) →
  (∀ e, rs = Raise e → is_Exception e = true) →
  main {| dry_run := false |} w
  = (HttpGet (url_of cfg) :: ts
       ++ [Print match rs with
                 | Ok _ => "Alert email sent to " +:+ str_opt (EMAIL_TO cfg)
                 | Raise e => "Failed to send email: " +:+ str_exn e
                 end],
     match rs with Ok _ => Ok tt | Raise _ => Raise (SystemExit 3) end).
Proof.
  intros Hl Hr Ha Hg Hf Hs He. unfold url_of in *. unfold main.
  rewrite Hl, bind_nil_ok. unfold fetch_open_meteo. cbv zeta. rewrite Hr.
  cbn -[analyze_forecast format_message send_email]. rewrite Ha.
  destruct good_runs as [|r good_runs]; [done|].
  cbn -[format_message send_email]. rewrite Hf.
  cbn -[send_email]. rewrite Hs.
  destruct rs as [[]|e]; cbn.
  - reflexivity.
  - rewrite (He e eq_refl). reflexivity.
Qed.

End OrchestratorFacts.

(** ** What a trace shows *)

Lemma send_calls_app t1 t2 : send_calls (t1 ++ t2) = (send_calls t1 + send_calls t2)%nat.
Proof. unfold send_calls. by rewrite List.filter_app, length_app. Qed.

Lemma deliveries_app t1 t2 : deliveries (t1 ++ t2) = (deliveries t1 + deliveries t2)%nat.
Proof. unfold deliveries. by rewrite List.filter_app, length_app. Qed.

Lemma stdout_app t1 t2 : stdout (t1 ++ t2) = stdout t1 ++ stdout t2.
Proof. apply omap_app. Qed.

Lemma send_calls_none trace :
  Forall (λ ev, is_send_call ev = false) trace → send_calls trace = 0%nat.
Proof.
  unfold send_calls. induction 1 as [|ev t Hev _ IH]; simpl; [done|].
  by rewrite Hev.
Qed.

Lemma send_calls_smtp trace :
  Forall (λ ev, is_smtp ev = true) trace → send_calls trace = 0%nat.
Proof.
  intros Hs. apply send_calls_none. eapply Forall_impl; [exact Hs|].
  by intros [].
Qed.

Lemma stdout_smtp trace :
  Forall (λ ev, is_smtp ev = true) trace → stdout trace = [].
Proof.
  unfold stdout. induction 1 as [|ev t Hev _ IH]; simpl; [done|].
  destruct ev; try discriminate; exact IH.
Qed.

Lemma send_calls_prints (lines : list string) : send_calls (Print <$> lines) = 0%nat.
Proof. apply send_calls_none, Forall_fmap, Forall_true. done. Qed.

Lemma delivers_bind {A B} n1 n2 (m : M A) (k : A → M B) :
  delivers_at_most n1 m → (∀ a, delivers_at_most n2 (k a)) →
  delivers_at_most (n1 + n2) (bind m k).
Proof.
  unfold delivers_at_most. destruct m as [t [a|e]]; simpl; intros Hm Hk.
  - specialize (Hk a). destruct (k a) as [t' r]; simpl in *.
    rewrite deliveries_app. lia.
  - lia.
Qed.

Lemma delivers_try_except {A} n1 n2 (body : M A) handler :
  delivers_at_most n1 body → (∀ e, delivers_at_most n2 (handler e)) →
  delivers_at_most (n1 + n2) (try_except body handler).
Proof.
  unfold delivers_at_most. destruct body as [t [a|e]]; simpl; intros Hm Hk.
  - lia.
  - destruct (is_Exception e); simpl; [|lia].
    specialize (Hk e). destruct (handler e) as [t' r]; simpl in *.
    rewrite deliveries_app. lia.
Qed.

Lemma delivers_finally {A} n1 n2 (body : M A) cleanup :
  delivers_at_most n1 body → delivers_at_most n2 cleanup →
  delivers_at_most (n1 + n2) (finally body cleanup).
Proof.
  unfold delivers_at_most.
  destruct body as [t r], cleanup as [t' [[]|e']]; simpl; intros Hm Hk;
    rewrite deliveries_app; lia.
Qed.

Lemma delivers_step ev ok failure :
  delivers_at_most (if is_delivery ev then 1 else 0) (smtp_step ev ok failure).
Proof.
  unfold delivers_at_most, smtp_step, deliveries.
  destruct ok; simpl; destruct (is_delivery ev); simpl; lia.
Qed.

Lemma delivers_ret {A} (a : A) : delivers_at_most 0 (ret a).
Proof. unfold delivers_at_most; simpl. unfold deliveries; simpl. lia. Qed.

Lemma send_email_delivers_once `{Library} srv subject body cfg :
  delivers_at_most 1 (send_email srv subject body cfg).
Proof.
  unfold send_email. rewrite bind_emit.
  unfold delivers_at_most at 1; simpl.
  change (deliveries (EnterSendEmail subject body :: ?t)) with (deliveries t).
  destruct (_ || _); [unfold deliveries; simpl; lia|].
  apply (delivers_bind 0 1); [apply (delivers_step (SmtpConnect _ _))|].
  intros _. apply (delivers_finally 1 0); [|apply (delivers_step SmtpQuit)].
  unfold smtp_session.
  apply (delivers_bind 0 1).
  { apply (delivers_try_except 0 0); [|intros; apply delivers_ret].
    apply (delivers_bind 0 0); [apply (delivers_step SmtpEhlo)|]. intros _.
    destruct (advertises_starttls srv); [|apply delivers_ret].
    apply (delivers_bind 0 0); [apply (delivers_step SmtpStartTls)|].
    intros _. apply (delivers_step SmtpEhlo). }
  intros _. apply (delivers_bind 0 1).
  { destruct (_ && _); [apply (delivers_step (SmtpLogin _ _))|apply delivers_ret]. }
  intros _. apply (delivers_step (SmtpSendMessage _)).
Qed.

Section OrchestratorClaims.
Context `{Library}.

Lemma summary_stdout url (ordered : list day) :
  stdout (HttpGet url :: Print "No suitable runs found. Summary:"
            :: ((λ d, Print (summary_line d)) <$> ordered))
  = "No suitable runs found. Summary:"%string :: (summary_line <$> ordered).
Proof.
  unfold stdout; simpl. f_equal.
  induction ordered as [|d l IH]; simpl; [done|]. by f_equal.
Qed.

Lemma summary_send_calls url (ordered : list day) :
  send_calls (HttpGet url :: Print "No suitable runs found. Summary:"
                :: ((λ d, Print (summary_line d)) <$> ordered)) = 0%nat.
Proof.
  apply send_calls_none. repeat constructor.
  apply Forall_fmap, Forall_true. done.
Qed.

(** Every invocation that loads its configuration takes one of four
    paths. *)
Lemma main_cases args w cfg :
  load_env (environ w) = ([], Ok cfg) →
  fetch_failure_outcome args w cfg ∨ no_good_runs_outcome args w cfg
  ∨ good_runs_outcome args w cfg ∨ analysis_error_outcome args w cfg.
Proof.
  intros Hl.
  destruct (http_reply w (url_of cfg)) as [msg|data] eqn:Hr.
  { left. exists msg. rewrite (main_fetch_failure _ _ _ _ Hl Hr). done. }
  destruct (analyze_forecast (clock_today w) data cfg)
    as [[[ordered runs] good_runs]|e] eqn:Ha.
  2:{ do 3 right. exists data, e.
      rewrite (main_analysis_error _ _ _ _ _ Hl Hr Ha). split_and!; auto.
      simpl. by destruct (analyze_forecast_raises _ _ _ _ Ha) as [->|[t ->]]. }
  destruct (decide (good_runs = [])) as [->|Hg].
  { right; left. exists data, ordered, runs.
    rewrite (main_no_good_runs _ _ _ _ _ _ Hl Hr Ha). cbn [fst snd].
    split_and!; auto using summary_stdout, summary_send_calls. }
  do 2 right; left.
  destruct (format_message_total cfg ordered good_runs
              (good_runs_nonempty _ _ _ _ _ _ Ha)) as [body Hf].
  exists data, ordered, runs, good_runs, body. split_and!; auto.
  destruct args as [[]]; simpl.
  - rewrite (main_dry_run _ _ _ _ _ _ _ Hl Hr Ha Hg Hf). done.
  - destruct (send_email_shape (smtp w) alert_subject body cfg)
      as (ts & rs & Hs & Hsmtp & _ & Hrs).
    pose proof (send_email_delivers_once (smtp w) alert_subject body cfg) as Hd.
    unfold delivers_at_most in Hd. rewrite Hs in Hd |- *. simpl in Hd.
    rewrite (main_send _ _ _ _ _ _ _ _ _ Hl Hr Ha Hg Hf Hs); cycle 1.
    { intros e He. by destruct (Hrs e He) as [->|[msg ->]]. }
    cbn [fst snd app]. split_and!.
    + change (send_calls (HttpGet ?u :: EnterSendEmail ?a ?b :: ?t))
        with (S (send_calls t)).
      rewrite send_calls_app, (send_calls_smtp _ Hsmtp). reflexivity.
    + apply elem_of_cons; right. apply elem_of_cons; by left.
    + change (deliveries (HttpGet ?u :: EnterSendEmail ?a ?b :: ?t))
        with (deliveries t).
      change (deliveries (EnterSendEmail ?a ?b :: ?t))
        with (deliveries t) in Hd.
      rewrite deliveries_app.
      change (deliveries [Print ?x]) with 0%nat. lia.
    + change (stdout (HttpGet ?u :: EnterSendEmail ?a ?b :: ?t))
        with (stdout t).
      rewrite stdout_app, (stdout_smtp _ Hsmtp). by destruct rs.
Qed.

(** C4, amended. When the fetch succeeds and an hourly array is empty or
    missing, the [NoDataError] of the analyzer is handled nowhere: it
    leaves [main] uncaught after the request alone, nothing is printed on
    standard output, no notification is attempted and the exit status
    is 1, not the fetch-failure status 2. *)
Theorem no_data_error_is_uncaught args w cfg data :
  load_env (environ w) = ([], Ok cfg) →
  http_reply w (url_of cfg) = inr data →
  get_times data = [] ∨ get_speeds data = [] →
  main args w = ([HttpGet (url_of cfg)], Raise NoDataError)
  ∧ stdout (main args w).1 = []
  ∧ send_calls (main args w).1 = 0%nat
  ∧ exit_status (main args w).2 = 1.
Proof.
  intros Hl Hr Hempty.
  apply analyze_forecast_no_data with (today := clock_today w) (cfg := cfg)
    in Hempty.
  rewrite (main_analysis_error _ _ _ _ _ Hl Hr Hempty). done.
Qed.

(** C6, amended. Every invocation whose configuration loads ends in
    exactly one of four outcomes: (a) the fetch fails, a message is
    printed and the status is 2; (b) there is no good run, the summary
    is printed and the status is 0; (c) good runs are found and the
    report is printed (dry run) or handed to [send_email] exactly once,
    with status 3 when the send fails and 0 otherwise; (d) the analyzer
    raises and its exception leaves [main] uncaught with status 1. *)
Theorem main_outcomes args w cfg :
  load_env (environ w) = ([], Ok cfg) →
  (fetch_failure_outcome args w cfg ∨ no_good_runs_outcome args w cfg
   ∨ good_runs_outcome args w cfg ∨ analysis_error_outcome args w cfg)
  ∧ ¬ (fetch_failure_outcome args w cfg ∧ no_good_runs_outcome args w cfg)
  ∧ ¬ (fetch_failure_outcome args w cfg ∧ good_runs_outcome args w cfg)
  ∧ ¬ (fetch_failure_outcome args w cfg ∧ analysis_error_outcome args w cfg)
  ∧ ¬ (no_good_runs_outcome args w cfg ∧ good_runs_outcome args w cfg)
  ∧ ¬ (no_good_runs_outcome args w cfg ∧ analysis_error_outcome args w cfg)
  ∧ ¬ (good_runs_outcome args w cfg ∧ analysis_error_outcome args w cfg).
Proof.
  intros Hl. split; [by apply main_cases|].
  unfold fetch_failure_outcome, no_good_runs_outcome, good_runs_outcome,
    analysis_error_outcome.
  split_and!; intros [Ha Hb];
    repeat match goal with
           | Hx : ∃ _, _ |- _ => destruct Hx as [? Hx]
           end;
    destruct Ha as (Hr1 & Ha), Hb as (Hr2 & Hb);
    rewrite Hr1 in Hr2; try discriminate;
    injection Hr2 as <-;
    try destruct Ha as (Ha1 & Ha); try destruct Hb as (Hb1 & Hb);
    rewrite Ha1 in Hb1; try discriminate.
  injection Hb1 as <- <- <-. by destruct Hb as [Hb _].
Qed.

Lemma main_dry_run_obeys w :
  obeys (λ ev, is_send_call ev = false ∧ is_smtp ev = false) (λ _, True)
    (main {| dry_run := true |} w).
Proof.
  unfold main. apply obeys_bind.
  { eapply obeys_weaken; [apply load_env_obeys|done..]. }
  intros cfg. apply obeys_bind.
  { apply obeys_try_except with (Q' := fetching_failure).
    - unfold fetch_open_meteo. apply obeys_bind; [by apply obeys_emit|].
      intros _. destruct (http_reply _ _);
        [apply obeys_raise; by eexists|apply obeys_ret].
    - by intros e [msg ->].
    - intros e. apply obeys_bind; [by apply obeys_emit|].
      intros _. by apply obeys_raise. }
  intros data. apply obeys_bind; [split; [constructor|done]|].
  intros [[ordered runs] [|r good_runs]].
  - apply obeys_bind; [by apply obeys_emit|]. intros _.
    apply obeys_for_each. intros d. by apply obeys_emit.
  - apply obeys_bind; [split; [constructor|done]|].
    intros body. simpl. split; [by repeat constructor|done].
Qed.

(** C8. In dry-run mode no trace of [main] contains a call of
    [send_email] or any SMTP traffic, whatever the environment, the
    reply and the clock; when the analysis succeeds the summary (no good
    run) or the subject and the report (good runs) are what standard
    output receives, and the status is 0. *)
Theorem dry_run_never_notifies w :
  send_calls (main {| dry_run := true |} w).1 = 0%nat
  ∧ Forall (λ ev, is_smtp ev = false) (main {| dry_run := true |} w).1
  ∧ (∀ cfg data ordered runs good_runs,
       load_env (environ w) = ([], Ok cfg) →
       http_reply w (url_of cfg) = inr data →
       analyze_forecast (clock_today w) data cfg
       = Ok (ordered, runs, good_runs) →
       exit_status (main {| dry_run := true |} w).2 = 0
       ∧ match good_runs with
         | [] =>
             stdout (main {| dry_run := true |} w).1
             = "No suitable runs found. Summary:"%string
                 :: (summary_line <$> ordered)
         | _ :: _ =>
             ∃ body,
               format_message good_runs ordered cfg = Ok body
               ∧ stdout (main {| dry_run := true |} w).1
                 = [alert_subject; body]
         end).
Proof.
  destruct (main_dry_run_obeys w) as [Htrace _].
  split_and!.
  - apply send_calls_none. eapply Forall_impl; [exact Htrace|]. by intros ? [].
  - eapply Forall_impl; [exact Htrace|]. by intros ? [].
  - intros cfg data ordered runs good_runs Hl Hr Ha.
    destruct good_runs as [|r good_runs].
    + rewrite (main_no_good_runs _ _ _ _ _ _ Hl Hr Ha).
      split; [done|apply summary_stdout].
    + destruct (format_message_total cfg ordered (r :: good_runs)
                  (good_runs_nonempty _ _ _ _ _ _ Ha)) as [body Hf].
      rewrite (main_dry_run _ _ _ _ _ _ _ Hl Hr Ha ltac:(done) Hf).
      split; [done|]. exists body. done.
Qed.

End OrchestratorClaims.

(** ** More on floats *)

Lemma compare_cont_spec_eq m1 m2 :
  Pos.compare_cont Eq m1 m2 = (Zpos m1 ?= Zpos m2).
Proof. reflexivity. Qed.

Lemma leb_trans (a b c : float) :
  Float.leb a b = true → Float.leb b c = true → Float.leb a c = true.
Proof.
  unfold Float.leb, SFleb.
  destruct a as [sa|sa| |sa ma ea], b as [sb|sb| |sb mb eb],
    c as [sc|sc| |sc mc ec]; simpl; try discriminate; try reflexivity;
    repeat match goal with s : bool |- _ => destruct s end;
    simpl; try discriminate; try reflexivity;
    rewrite ?compare_cont_spec_eq;
    repeat match goal with
           | |- context [?x ?= ?y] => destruct (Z.compare_spec x y)
           end;
    simpl; try discriminate; try reflexivity; try lia.
Qed.

Lemma binary_round_aux_opp s m e l :
  binary_round_aux Float.prec Float.emax (negb s) m e l
  = SFopp (binary_round_aux Float.prec Float.emax s m e l).
Proof.
  unfold binary_round_aux.
  destruct (shr_fexp _ _ m e l) as [mrs' e'].
  destruct (shr_fexp _ _ _ e' loc_Exact) as [mrs'' e''].
  destruct (shr_m mrs''); [reflexivity| |reflexivity].
  destruct (e'' <=? _); reflexivity.
Qed.

Lemma binary_round_aux_sign s m e l :
  0 ≤ m →
  match binary_round_aux Float.prec Float.emax s m e l with
  | S754_zero s' | S754_infinity s' | S754_finite s' _ _ => s' = s
  | S754_nan => False
  end.
Proof.
  intros Hm. pose proof (binary_round_aux_not_nan s m e l Hm) as Hnan.
  revert Hnan. unfold binary_round_aux.
  destruct (shr_fexp _ _ m e l) as [mrs' e'].
  destruct (shr_fexp _ _ _ e' loc_Exact) as [mrs'' e''].
  destruct (shr_m mrs''); [reflexivity| |discriminate].
  destruct (e'' <=? _); reflexivity.
Qed.

(** X1. The converter is odd and keeps the sign: the knots of [-x] are the
    negated knots of [x], and a speed that is at least zero converts to
    knots that are at least zero. *)
Theorem mps_to_knots_odd_and_sign_preserving mps :
  mps_to_knots (SFopp mps) = SFopp (mps_to_knots mps)
  ∧ (Float.leb Float.zero mps = true →
     Float.leb Float.zero (mps_to_knots mps) = true).
Proof.
  split.
  - destruct mps as [s|s| |s m e];
      unfold mps_to_knots, Float.mul, KNOTS_PER_MPS; simpl;
      rewrite ?xorb_false_r; try reflexivity.
    apply binary_round_aux_opp.
  - destruct mps as [s|s| |s m e]; try discriminate.
    + reflexivity.
    + destruct s; [discriminate|reflexivity].
    + destruct s; [discriminate|]. intros _.
      unfold mps_to_knots, Float.mul, KNOTS_PER_MPS; simpl.
      pose proof (binary_round_aux_sign false
                    (Z.pos (m * 8754297320830192)) (e + -52) loc_Exact
                    ltac:(lia)) as Hs.
      destruct (binary_round_aux _ _ _ _ _ _) as [s'|s'| |s' m' e'];
        try done; subst s'; reflexivity.
Qed.

(** ** More on run detection *)

Section MoreRunFacts.
Variable cfg : config.

Lemma scan_runs_concat ordered : ∀ runs current,
  concat (scan_runs cfg ordered runs current)
  = concat runs ++ current ++ List.filter (good_day cfg) ordered.
Proof.
  induction ordered as [|[d hours] rest IH]; simpl; intros runs current.
  - destruct current; simpl.
    + by rewrite app_nil_r.
    + by rewrite concat_app; simpl; rewrite !app_nil_r.
  - unfold good_day at 1; simpl.
    destruct (MIN_HOURS_PER_DAY cfg <=? hours).
    + rewrite IH. by rewrite <- (app_assoc current).
    + destruct current as [|x current]; rewrite IH; simpl; [done|].
      rewrite concat_app; simpl. by rewrite app_nil_r, <- app_assoc.
Qed.

Lemma scan_runs_all_good ordered : ∀ current,
  Forall (λ d, good_day cfg d = true) ordered →
  current ++ ordered ≠ [] →
  scan_runs cfg ordered [] current = [current ++ ordered].
Proof.
  induction ordered as [|[d hours] rest IH]; simpl; intros current Hall Hne.
  - rewrite app_nil_r in *. by destruct current.
  - apply Forall_cons in Hall as [Hd Hrest]. unfold good_day in Hd; simpl in Hd.
    rewrite Hd, IH; [|done|].
    + by rewrite <- app_assoc.
    + by destruct current.
Qed.

Lemma find_runs_length_le ordered r :
  r ∈ find_runs cfg ordered → (length r ≤ length ordered)%nat.
Proof.
  destruct (find_runs_spans cfg ordered) as (spans & -> & _ & _).
  intros ([i n] & -> & _)%list_elem_of_fmap.
  unfold segment; simpl. rewrite length_take, length_drop. lia.
Qed.

End MoreRunFacts.

(** ** More on the analyzer *)

Section MoreAnalyzerFacts.
Context `{Library}.

Lemma filter_length_perm {A} (f : A → bool) (l l' : list A) :
  l ≡ₚ l' → length (List.filter f l) = length (List.filter f l').
Proof.
  induction 1 as [|x l l' _ IH|x y l|l1 l2 l3 _ IH1 _ IH2]; simpl.
  - reflexivity.
  - destruct (f x); simpl; by rewrite IH.
  - destruct (f x), (f y); reflexivity.
  - by rewrite IH1.
Qed.

Lemma filter_length_le {A} (f g : A → bool) (l : list A) :
  (∀ x, f x = true → g x = true) →
  (length (List.filter f l) ≤ length (List.filter g l))%nat.
Proof.
  intros Hfg. induction l as [|x l IH]; simpl; [lia|].
  destruct (f x) eqn:Hf.
  - rewrite (Hfg x Hf). simpl. lia.
  - destruct (g x); simpl; lia.
Qed.

Lemma filter_filter_length {A} (f g : A → bool) (l : list A) :
  (∀ x, f x = true → g x = true) →
  length (List.filter f (List.filter g l)) = length (List.filter f l).
Proof.
  intros Hfg. induction l as [|x l IH]; simpl; [done|].
  destruct (g x) eqn:Hg; simpl.
  - destruct (f x); simpl; by rewrite IH.
  - destruct (f x) eqn:Hf; [|done]. rewrite (Hfg x Hf) in Hg. discriminate.
Qed.

Lemma qualifying_on_reading_on cfg d r :
  qualifying_on cfg d r = true → reading_on d r = true.
Proof.
  unfold qualifying_on, reading_on. destruct (fromisoformat r.1); [|done].
  by intros [? _]%andb_true_iff.
Qed.

Lemma qualifying_on_within cfg today d r :
  today ≤ d < today + FORECAST_DAYS cfg →
  qualifying_on cfg d r = true → within_window cfg today r = true.
Proof.
  unfold qualifying_on, within_window. intros Hd.
  destruct (fromisoformat r.1) as [t|]; [|done].
  intros [Ht _]%andb_true_iff. apply bool_decide_eq_true in Ht. subst d.
  apply andb_true_iff. split; [apply Z.leb_le|apply Z.ltb_lt]; lia.
Qed.

Lemma qualifying_hours_le_readings cfg d readings :
  qualifying_hours cfg d readings ≤ readings_on d readings.
Proof.
  unfold qualifying_hours, readings_on.
  apply inj_le, filter_length_le, qualifying_on_reading_on.
Qed.

Lemma readings_on_le_length d readings :
  readings_on d readings ≤ Z.of_nat (length readings).
Proof.
  unfold readings_on. apply inj_le.
  induction readings as [|r l IH]; simpl; [lia|].
  destruct (reading_on d r); simpl; lia.
Qed.

Lemma qualifying_hours_window cfg today d readings :
  today ≤ d < today + FORECAST_DAYS cfg →
  qualifying_hours cfg d (List.filter (within_window cfg today) readings)
  = qualifying_hours cfg d readings.
Proof.
  intros Hd. unfold qualifying_hours. f_equal.
  apply filter_filter_length. intros r. by apply qualifying_on_within.
Qed.

Lemma qualifying_hours_perm cfg d readings readings' :
  readings ≡ₚ readings' →
  qualifying_hours cfg d readings = qualifying_hours cfg d readings'.
Proof.
  intros Hp. unfold qualifying_hours. f_equal. by apply filter_length_perm.
Qed.

Lemma build_ordered_ext cfg today (m m' : gmap Z Z) :
  (∀ d, today ≤ d < today + FORECAST_DAYS cfg →
        default 0 (m !! d) = default 0 (m' !! d)) →
  build_ordered cfg today m = build_ordered cfg today m'.
Proof.
  intros Hext. apply list_eq. intros i.
  destruct (decide (i < Z.to_nat (FORECAST_DAYS cfg))%nat) as [Hi|Hi].
  - rewrite !build_ordered_lookup by done. rewrite Hext by lia. done.
  - rewrite !lookup_ge_None_2; [done|..];
      rewrite build_ordered_length; lia.
Qed.

Lemma aggregate_first_rejected cfg pre t sp post (m : gmap Z Z) :
  timestamps_parse pre → fromisoformat t = None →
  aggregate cfg (pre ++ (t, sp) :: post) m = Raise (IsoformatError t).
Proof.
  revert m. induction pre as [|[t' sp'] pre IH]; simpl; intros m Hwf Ht.
  - by rewrite Ht.
  - apply Forall_cons in Hwf as [[x Hx] Hwf]. simpl in Hx. rewrite Hx.
    by apply IH.
Qed.

Lemma aggregate_raises_split cfg readings : ∀ (m : gmap Z Z) e,
  aggregate cfg readings m = Raise e →
  ∃ pre t sp post,
    e = IsoformatError t ∧ readings = pre ++ (t, sp) :: post
    ∧ timestamps_parse pre ∧ fromisoformat t = None.
Proof.
  induction readings as [|[t sp] rest IH]; simpl; intros m e Hagg.
  - discriminate.
  - destruct (fromisoformat t) as [x|] eqn:Ht.
    + destruct (IH _ _ Hagg) as (pre & t' & sp' & post & -> & -> & Hwf & Hn).
      exists ((t, sp) :: pre), t', sp', post. split_and!; auto.
      apply Forall_cons. split; [simpl; by rewrite Ht|done].
    + injection Hagg as <-. exists [], t, sp, rest. split_and!; auto.
      constructor.
Qed.

Lemma qualifies_needs_window cfg sp :
  qualifies cfg sp = true →
  Float.leb (MIN_WIND_KNOTS cfg) (MAX_WIND_KNOTS cfg) = true.
Proof.
  unfold qualifies, in_window. intros [H1 H2]%andb_true_iff.
  by eapply leb_trans.
Qed.

Lemma qualifying_hours_no_window cfg d readings :
  Float.leb (MIN_WIND_KNOTS cfg) (MAX_WIND_KNOTS cfg) = false →
  qualifying_hours cfg d readings = 0.
Proof.
  intros Hw. unfold qualifying_hours.
  induction readings as [|r l IH]; simpl; [done|].
  unfold qualifying_on at 1.
  destruct (fromisoformat r.1); [|exact IH].
  destruct (qualifies cfg r.2) eqn:Hq.
  - apply qualifies_needs_window in Hq. congruence.
  - rewrite andb_false_r. exact IH.
Qed.

(** X2. The runs contain every good day of the ordered list exactly once
    and in order, and nothing else: laid end to end they are the list of
    the days that reach [MIN_HOURS_PER_DAY]. *)
Theorem runs_concat_to_good_days cfg ordered :
  concat (find_runs cfg ordered) = List.filter (good_day cfg) ordered.
Proof. unfold find_runs. by rewrite scan_runs_concat. Qed.

(** X3. The runs the analyzer returns are stretches of consecutive
    calendar dates inside the window, and two different runs are
    separated by at least one day. *)
Theorem runs_are_calendar_consecutive today data cfg ordered runs good_runs :
  analyze_forecast today data cfg = Ok (ordered, runs, good_runs) →
  (∀ r, r ∈ runs →
     ∃ i : nat,
       (i + length r ≤ Z.to_nat (FORECAST_DAYS cfg))%nat
       ∧ ∀ (j : nat) x, r !! j = Some x → x.1 = today + Z.of_nat (i + j))
  ∧ (∀ (a b : nat) r r' x y,
       (a < b)%nat → runs !! a = Some r → runs !! b = Some r' →
       x ∈ r → y ∈ r' → x.1 + 1 < y.1).
Proof.
  intros (_ & _ & m & _ & -> & -> & _)%analyze_forecast_inv.
  destruct (find_runs_spans cfg (build_ordered cfg today m))
    as (spans & -> & Hord & Hiff).
  assert (Hseg : ∀ i n (j : nat) x,
            segment (build_ordered cfg today m) (i, n) !! j = Some x →
            (j < n)%nat ∧ (i + j < Z.to_nat (FORECAST_DAYS cfg))%nat
            ∧ x.1 = today + Z.of_nat (i + j)).
  { intros i n j x [Hj Hx]%segment_lookup.
    pose proof (lookup_lt_Some _ _ _ Hx) as Hlt.
    rewrite build_ordered_length in Hlt.
    rewrite build_ordered_lookup in Hx by done. injection Hx as <-.
    done. }
  split.
  - intros r ([i n] & -> & Hin)%list_elem_of_fmap. exists i. split.
    + apply Hiff in Hin as (Hn & Hgood & _).
      pose proof (good_day_at_inside _ _ _ (Hgood i ltac:(lia))) as Hi.
      rewrite build_ordered_length in Hi. unfold segment; simpl.
      rewrite length_take, length_drop, build_ordered_length. lia.
    + intros j x Hx. by destruct (Hseg _ _ _ _ Hx) as (_ & _ & ?).
  - intros a b r r' x y Hab Ha Hb [j Hx]%list_elem_of_lookup
      [k Hy]%list_elem_of_lookup.
    rewrite list_lookup_fmap in Ha, Hb.
    destruct (spans !! a) as [[i n]|] eqn:Hsa; [|done].
    destruct (spans !! b) as [[i' n']|] eqn:Hsb; [|done].
    injection Ha as <-. injection Hb as <-.
    destruct (Hseg _ _ _ _ Hx) as (Hj & _ & ->).
    destruct (Hseg _ _ _ _ Hy) as (_ & _ & ->).
    pose proof (Hord a b _ _ Hab Hsa Hsb) as Hgap. simpl in Hgap. lia.
Qed.

(** X4. Every count of the ordered list lies between 0 and the number of
    readings of its date, which is at most the number of (timestamp,
    speed) pairs. *)
Theorem counts_are_bounded today data cfg ordered runs good_runs d h :
  analyze_forecast today data cfg = Ok (ordered, runs, good_runs) →
  (d, h) ∈ ordered →
  0 ≤ h
  ∧ h ≤ readings_on d (zip (get_times data) (get_speeds data))
  ∧ readings_on d (zip (get_times data) (get_speeds data))
    ≤ Z.of_nat (length (get_times data) `min` length (get_speeds data)).
Proof.
  intros (_ & _ & m & Hm & -> & _)%analyze_forecast_inv Hin.
  rewrite (build_ordered_elem cfg today _ m d h Hm Hin). split_and!.
  - apply qualifying_hours_nonneg.
  - apply qualifying_hours_le_readings.
  - etrans; [apply readings_on_le_length|]. by rewrite length_zip_with.
Qed.

(** X5. The result depends only on the readings dated inside the window,
    and not on their order: two inputs with well-formed timestamps whose
    readings inside the window are the same up to reordering are analysed
    alike. *)
Theorem analysis_reads_the_window_only today data data' cfg :
  get_times data ≠ [] → get_speeds data ≠ [] →
  get_times data' ≠ [] → get_speeds data' ≠ [] →
  timestamps_parse (zip (get_times data) (get_speeds data)) →
  timestamps_parse (zip (get_times data') (get_speeds data')) →
  List.filter (within_window cfg today) (zip (get_times data) (get_speeds data))
  ≡ₚ List.filter (within_window cfg today)
       (zip (get_times data') (get_speeds data')) →
  analyze_forecast today data cfg = analyze_forecast today data' cfg.
Proof.
  intros Ht Hs Ht' Hs' Hwf Hwf' Hperm.
  destruct (analyze_forecast_total today data cfg Ht Hs Hwf) as (m & Hm & ->).
  destruct (analyze_forecast_total today data' cfg Ht' Hs' Hwf')
    as (m' & Hm' & ->).
  assert (Ho : build_ordered cfg today m = build_ordered cfg today m').
  { apply build_ordered_ext. intros d Hd.
    rewrite (aggregate_counts _ _ _ _ Hm), (aggregate_counts _ _ _ _ Hm').
    rewrite lookup_empty; simpl.
    rewrite <- (qualifying_hours_window cfg today d _ Hd).
    rewrite <- (qualifying_hours_window cfg today d
                  (zip (get_times data') _) Hd).
    by rewrite (qualifying_hours_perm _ _ _ _ Hperm). }
  by rewrite Ho.
Qed.

(** X6. The analyzer raises the error of a timestamp exactly when that
    timestamp is the first one of the paired readings that
    [fromisoformat] rejects; what follows it is not looked at. *)
Theorem first_rejected_timestamp_is_raised today data cfg t :
  analyze_forecast today data cfg = Raise (IsoformatError t)
  ↔ ∃ pre sp post,
      zip (get_times data) (get_speeds data) = pre ++ (t, sp) :: post
      ∧ timestamps_parse pre ∧ fromisoformat t = None.
Proof.
  split.
  - unfold analyze_forecast. destruct (_ || _); [discriminate|].
    destruct (aggregate _ _ _) as [m|e] eqn:Hagg; [discriminate|].
    intros [= ->].
    apply aggregate_raises_split in Hagg
      as (pre & t' & sp & post & [= <-] & Hz & Hwf & Hn).
    by exists pre, sp, post.
  - intros (pre & sp & post & Hz & Hwf & Hn).
    unfold analyze_forecast.
    destruct (decide (get_times data = [])) as [Ht|Ht].
    { rewrite Ht, zip_with_nil_l in Hz. by destruct pre. }
    destruct (decide (get_speeds data = [])) as [Hs|Hs].
    { rewrite Hs, zip_with_nil_r in Hz. by destruct pre. }
    rewrite (bool_decide_eq_false_2 _ Ht), (bool_decide_eq_false_2 _ Hs).
    simpl. rewrite Hz, aggregate_first_rejected by done. done.
Qed.

(** X7. With [REQUIRED_CONSECUTIVE_DAYS] at most 1 every run is a good
    run; with a value above the horizon there is no good run whatever the
    forecast. *)
Theorem required_days_at_the_edges today data cfg ordered runs good_runs :
  analyze_forecast today data cfg = Ok (ordered, runs, good_runs) →
  (REQUIRED_CONSECUTIVE_DAYS cfg ≤ 1 → good_runs = runs)
  ∧ (0 `max` FORECAST_DAYS cfg < REQUIRED_CONSECUTIVE_DAYS cfg →
     good_runs = []).
Proof.
  intros (_ & _ & m & _ & -> & -> & ->)%analyze_forecast_inv.
  set (ordered := build_ordered cfg today m).
  assert (Hkeep : ∀ runs,
            Forall (λ r, long_enough cfg r = true) runs →
            select_good cfg runs = runs).
  { induction 1 as [|r l Hr _ IH]; simpl; [done|]. by rewrite Hr, IH. }
  assert (Hdrop : ∀ runs,
            Forall (λ r, long_enough cfg r = false) runs →
            select_good cfg runs = []).
  { induction 1 as [|r l Hr _ IH]; simpl; [done|]. by rewrite Hr. }
  split; intros Hreq.
  - apply Hkeep, Forall_forall. intros r Hr.
    apply find_runs_nonempty in Hr. unfold long_enough. apply Z.leb_le.
    destruct r; [done|]. simpl. lia.
  - apply Hdrop, Forall_forall. intros r Hr.
    apply find_runs_length_le in Hr. unfold ordered in Hr.
    rewrite build_ordered_length in Hr.
    unfold long_enough. apply Z.leb_gt. lia.
Qed.

(** X8. With [MIN_HOURS_PER_DAY] at most 0 every day is a good day: over
    a horizon of at least one day the analyzer returns a single run, the
    whole ordered list. *)
Theorem no_minimum_gives_one_run today data cfg ordered runs good_runs :
  analyze_forecast today data cfg = Ok (ordered, runs, good_runs) →
  MIN_HOURS_PER_DAY cfg ≤ 0 → 0 < FORECAST_DAYS cfg →
  runs = [ordered].
Proof.
  intros (_ & _ & m & Hm & -> & -> & _)%analyze_forecast_inv Hmin Hn.
  unfold find_runs. rewrite scan_runs_all_good; [done| |].
  - apply Forall_forall. intros [d h] Hin.
    rewrite (build_ordered_elem cfg today _ m d h Hm Hin).
    unfold good_day; simpl. apply Z.leb_le.
    pose proof (qualifying_hours_nonneg cfg d
                  (zip (get_times data) (get_speeds data))). lia.
  - intros Hnil. apply (f_equal length) in Hnil.
    rewrite length_app, build_ordered_length in Hnil. simpl in Hnil. lia.
Qed.

(** X9. When [MIN_WIND_KNOTS <= MAX_WIND_KNOTS] does not hold (the bounds
    are swapped, or one of them is NaN) no speed qualifies and every
    count of the ordered list is 0. *)
Theorem empty_wind_window_counts_nothing cfg :
  Float.leb (MIN_WIND_KNOTS cfg) (MAX_WIND_KNOTS cfg) = false →
  (∀ sp, qualifies cfg sp = false)
  ∧ ∀ today data ordered runs good_runs,
      analyze_forecast today data cfg = Ok (ordered, runs, good_runs) →
      Forall (λ d : day, d.2 = 0) ordered.
Proof.
  intros Hw. split.
  - intros sp. destruct (qualifies cfg sp) eqn:Hq; [|done].
    apply qualifies_needs_window in Hq. congruence.
  - intros today data ordered runs good_runs
      (_ & _ & m & Hm & -> & _)%analyze_forecast_inv.
    apply Forall_forall. intros [d h] Hin.
    rewrite (build_ordered_elem cfg today _ m d h Hm Hin).
    by apply qualifying_hours_no_window.
Qed.

End MoreAnalyzerFacts.

(** ** More on the report *)

Section MoreFormatterFacts.
Context `{Library}.

Lemma run_lines_select_good cfg runs :
  run_lines cfg (select_good cfg runs) = run_lines cfg runs.
Proof.
  induction runs as [|r runs IH]; simpl; [done|].
  destruct (long_enough cfg r) eqn:Hr; simpl; [|done].
  by rewrite Hr, IH.
Qed.

Lemma run_line_raises r e : run_line r = Raise e → e = IndexError ∧ r = [].
Proof.
  unfold run_line. destruct r as [|x r]; [by intros [= <-]|].
  simpl. destruct (last (x :: r)) eqn:Hl; [discriminate|].
  by apply last_None in Hl.
Qed.

Lemma run_lines_raises cfg runs e :
  run_lines cfg runs = Raise e ↔
  e = IndexError ∧ [] ∈ runs ∧ REQUIRED_CONSECUTIVE_DAYS cfg ≤ 0.
Proof.
  induction runs as [|r runs IH]; simpl.
  - split; [discriminate|]. by intros (_ & ?%elem_of_nil & _).
  - destruct (long_enough cfg r) eqn:Hr.
    + destruct (run_line r) as [l|e'] eqn:Hl.
      * destruct (run_lines cfg runs) as [ls|e''] eqn:Hls.
        -- split; [discriminate|]. intros (-> & Hin & Hreq).
           apply elem_of_cons in Hin as [<-|Hin]; [discriminate|].
           assert (Hbad : @Ok (list string) ls = Raise IndexError)
             by (by apply IH). discriminate.
        -- split.
           ++ intros [= <-]. destruct (proj1 IH eq_refl) as (-> & Hin & Hreq).
              split_and!; auto. apply elem_of_cons; auto.
           ++ intros (-> & Hin & Hreq).
              apply elem_of_cons in Hin as [<-|Hin]; [discriminate|].
              apply IH. done.
      * apply run_line_raises in Hl as [-> ->].
        unfold long_enough in Hr; simpl in Hr. apply Z.leb_le in Hr.
        split; [intros [= <-]|intros (-> & _)]; [|done].
        split_and!; auto. apply elem_of_cons; auto.
    + rewrite IH. split; intros (-> & Hin & Hreq); split_and!; auto.
      * apply elem_of_cons; auto.
      * apply elem_of_cons in Hin as [<-|Hin]; [|done].
        unfold long_enough in Hr; simpl in Hr. apply Z.leb_gt in Hr. lia.
Qed.

Lemma run_lines_match cfg runs ls :
  run_lines cfg runs = Ok ls → Forall2 line_of_run (select_good cfg runs) ls.
Proof.
  unfold select_good.
  revert ls. induction runs as [|r runs IH]; simpl; intros ls.
  - intros [= <-]. constructor.
  - destruct (long_enough cfg r) eqn:Hr; [|apply IH].
    destruct (run_line r) as [l|] eqn:Hl; [|discriminate].
    destruct (run_lines cfg runs) as [ls'|]; [|discriminate].
    intros [= <-]. apply Forall2_cons. split; [|apply IH; reflexivity].
    unfold run_line in Hl.
    destruct (head r) as [first|] eqn:Hfirst; [|discriminate].
    destruct (last r) as [final|] eqn:Hfinal; [|discriminate].
    injection Hl as <-. exists first, final. by rewrite Hfirst, Hfinal.
Qed.

(** X10. [format_message] fails only with the [IndexError] of [run[0]],
    and exactly when it is given an empty run while
    [REQUIRED_CONSECUTIVE_DAYS] is at most 0. *)
Theorem format_message_fails_only_on_an_empty_run runs ordered cfg e :
  format_message runs ordered cfg = Raise e
  ↔ e = IndexError ∧ [] ∈ runs ∧ REQUIRED_CONSECUTIVE_DAYS cfg ≤ 0.
Proof.
  rewrite <- run_lines_raises. unfold format_message.
  destruct (run_lines cfg runs) as [ls|e']; split; try discriminate;
    by intros [= ->].
Qed.

(** X11. The formatter applies the length filter itself: runs shorter
    than [REQUIRED_CONSECUTIVE_DAYS] are left out of the report, so the
    report of a list of runs is the report of its good runs. *)
Theorem format_message_filters_the_runs runs ordered cfg :
  format_message runs ordered cfg
  = format_message (select_good cfg runs) ordered cfg.
Proof. unfold format_message. by rewrite run_lines_select_good. Qed.

(** X12. The report of the analyzer's result is always produced, and its
    last lines are one line per good run, in order, each naming the first
    date, the last date and the number of days of its run. *)
Theorem report_lists_each_good_run today data cfg ordered runs good_runs :
  analyze_forecast today data cfg = Ok (ordered, runs, good_runs) →
  ∃ matching,
    Forall2 line_of_run good_runs matching
    ∧ format_message good_runs ordered cfg
      = Ok (join_lines
              ([ "Good kitesurfing forecast detected on Hel Peninsula"
                   +:+ newline;
                 "Forecast summary (date: good_hours):" ]
               ++ (day_line <$> ordered)
               ++ [ "";
                    "Thresholds: " +:+ str_float (MIN_WIND_KNOTS cfg) +:+ "-"
                      +:+ str_float (MAX_WIND_KNOTS cfg) +:+ " knots, min "
                      +:+ pretty (MIN_HOURS_PER_DAY cfg) +:+ "h/day";
                    "";
                    "Matching runs:" ]
               ++ matching))%string.
Proof.
  intros Ha.
  destruct (run_lines_total cfg good_runs
              (good_runs_nonempty _ _ _ _ _ _ Ha)) as [ls Hls].
  exists ls. split.
  - apply run_lines_match in Hls.
    apply analyze_forecast_inv in Ha as (_ & _ & m & _ & _ & _ & ->).
    revert Hls. unfold select_good.
    replace (List.filter (long_enough cfg)
               (List.filter (long_enough cfg) runs))
      with (List.filter (long_enough cfg) runs); [done|].
    induction runs as [|r l IH]; simpl; [done|].
    destruct (long_enough cfg r) eqn:Hr; simpl; [|done]. by rewrite Hr, <- IH.
  - unfold format_message. by rewrite Hls.
Qed.

End MoreFormatterFacts.

(** ** More on the notifier *)

Section MoreNotifierFacts.
Context `{Library}.

Lemma config_complete_true cfg :
  config_complete cfg = true →
  truthy (SMTP_HOST cfg) = true ∧ truthy (EMAIL_FROM cfg) = true
  ∧ truthy (EMAIL_TO cfg) = true.
Proof.
  unfold config_complete. intros [[? ?]%andb_true_iff ?]%andb_true_iff. done.
Qed.

Lemma truthy_Some o : truthy o = true → ∃ s, o = Some s ∧ s ≠ ""%string.
Proof.
  destruct o as [s|]; [|done]. simpl. intros Hs. exists s. split; [done|].
  intros ->. by rewrite bool_decide_eq_true_2 in Hs.
Qed.

(** The session on a complete configuration, for each behaviour of the
    server. *)
Ltac session srv cfg :=
  unfold send_email, smtp_session, smtp_step, has_credentials in *;
  destruct srv as [connect ehlo tls starttls ehlo' login accept quit];
  destruct (truthy (SMTP_USER cfg) && truthy (SMTP_PASSWORD cfg));
  destruct connect, ehlo, tls, starttls, ehlo', login, accept, quit.

Lemma send_email_result srv subject body cfg :
  config_complete cfg = true →
  (send_email srv subject body cfg).2
  = if negb (accepts_connection srv) then Raise (SendError "connect")
    else if negb (answers_quit srv) then Raise (SendError "quit")
    else if has_credentials cfg && negb (accepts_login srv)
         then Raise (SendError "login")
    else if negb (accepts_message srv) then Raise (SendError "send_message")
    else Ok tt.
Proof.
  intros (Hh & Hf & Ht)%config_complete_true.
  session srv cfg; rewrite Hh, Hf, Ht; reflexivity.
Qed.

Lemma send_email_counts srv subject body cfg :
  config_complete cfg = true →
  let trace := (send_email srv subject body cfg).1 in
  count is_connect trace = 1%nat
  ∧ count is_starttls trace
    = (if accepts_connection srv && answers_ehlo srv
          && advertises_starttls srv then 1 else 0)%nat
  ∧ count is_login trace
    = (if accepts_connection srv && has_credentials cfg then 1 else 0)%nat
  ∧ deliveries trace
    = (if accepts_connection srv
          && (negb (has_credentials cfg) || accepts_login srv)
       then 1 else 0)%nat
  ∧ last trace
    = Some (if accepts_connection srv then SmtpQuit
            else SmtpConnect (str_opt (SMTP_HOST cfg)) (port_of cfg)).
Proof.
  intros (Hh & Hf & Ht)%config_complete_true.
  session srv cfg; rewrite Hh, Hf, Ht; repeat split.
Qed.

End MoreNotifierFacts.

Section NotifierExtras.
Context `{Library}.

Lemma send_email_wire srv subject body cfg :
  Forall (on_the_wire subject body cfg) (send_email srv subject body cfg).1.
Proof.
  destruct (config_complete cfg) eqn:Hc.
  2:{ rewrite send_email_incomplete by done. by repeat constructor. }
  destruct (config_complete_true _ Hc) as (Hh & Hf & Ht).
  unfold send_email. rewrite bind_emit, Hh, Hf, Ht. cbn [negb orb fst].
  constructor; [done|].
  match goal with |- Forall _ ?m.1 =>
    cut (obeys (on_the_wire subject body cfg) (λ _, True) m);
      [by intros []|]
  end.
  destruct (truthy_Some _ Hh) as (host & Hhost & Hne).
  apply obeys_bind.
  { unfold smtp_step. apply obeys_bind.
    - apply obeys_emit. simpl. by rewrite Hhost.
    - intros _. destruct (accepts_connection srv);
        [apply obeys_ret|by apply obeys_raise]. }
  intros _. apply obeys_finally.
  2:{ unfold smtp_step. apply obeys_bind; [by apply obeys_emit|].
      intros _. destruct (answers_quit srv);
        [apply obeys_ret|by apply obeys_raise]. }
  unfold smtp_session, smtp_step.
  apply obeys_bind; [|intros _; apply obeys_bind; [|intros _]].
  - apply obeys_try_except with (Q' := sending_failure).
    + apply obeys_bind.
      { apply obeys_bind; [by apply obeys_emit|]. intros _.
        destruct (answers_ehlo srv);
          [apply obeys_ret|apply obeys_raise; by eexists]. }
      intros _. destruct (advertises_starttls srv); [|apply obeys_ret].
      apply obeys_bind.
      { apply obeys_bind; [by apply obeys_emit|]. intros _.
        destruct (starttls_succeeds srv);
          [apply obeys_ret|apply obeys_raise; by eexists]. }
      intros _. apply obeys_bind; [by apply obeys_emit|]. intros _.
      destruct (answers_ehlo_after_tls srv);
        [apply obeys_ret|apply obeys_raise; by eexists].
    + by intros e [msg ->].
    + intros e. apply obeys_ret.
  - destruct (truthy (SMTP_USER cfg) && truthy (SMTP_PASSWORD cfg)) eqn:Hup;
      [|apply obeys_ret].
    apply andb_true_iff in Hup as [Hu Hp].
    destruct (truthy_Some _ Hu) as (user & Huser & Hune).
    destruct (truthy_Some _ Hp) as (pwd & Hpwd & Hpne).
    apply obeys_bind.
    + apply obeys_emit. simpl. by rewrite Huser, Hpwd.
    + intros _. destruct (accepts_login srv);
        [apply obeys_ret|by apply obeys_raise].
  - apply obeys_bind; [by apply obeys_emit|]. intros _.
    destruct (accepts_message srv); [apply obeys_ret|by apply obeys_raise].
Qed.


(** X14. A failed EHLO or STARTTLS negotiation is swallowed: two servers
    that differ only in their answers to EHLO and STARTTLS give
    [send_email] the same outcome and are handed the message equally
    often. *)
Theorem negotiation_failure_is_not_fatal srv srv' subject body cfg :
  accepts_connection srv = accepts_connection srv' →
  accepts_login srv = accepts_login srv' →
  accepts_message srv = accepts_message srv' →
  answers_quit srv = answers_quit srv' →
  (send_email srv subject body cfg).2 = (send_email srv' subject body cfg).2
  ∧ deliveries (send_email srv subject body cfg).1
    = deliveries (send_email srv' subject body cfg).1.
Proof.
  intros Hc Hl Hm Hq. destruct (config_complete cfg) eqn:Hcfg.
  - rewrite !send_email_result by done. rewrite Hc, Hl, Hm, Hq.
    split; [done|].
    destruct (send_email_counts srv subject body cfg Hcfg)
      as (_ & _ & _ & -> & _).
    destruct (send_email_counts srv' subject body cfg Hcfg)
      as (_ & _ & _ & -> & _).
    by rewrite Hc, Hl.
  - by rewrite !send_email_incomplete.
Qed.

(** X15. STARTTLS is attempted at most once, and exactly when the server
    accepted the connection, answered EHLO and advertised the extension. *)
Theorem starttls_only_when_advertised srv subject body cfg :
  config_complete cfg = true →
  count is_starttls (send_email srv subject body cfg).1
  = (if accepts_connection srv && answers_ehlo srv
        && advertises_starttls srv then 1 else 0)%nat.
Proof. intros Hc. by destruct (send_email_counts srv subject body cfg Hc) as (_ & ? & _). Qed.


(** X17. The server sees a login exactly when both [SMTP_USER] and
    [SMTP_PASSWORD] are set and not empty, and a rejected login keeps the
    message from being handed over. *)
Theorem login_only_with_both_credentials srv subject body cfg :
  config_complete cfg = true →
  count is_login (send_email srv subject body cfg).1
  = (if accepts_connection srv && has_credentials cfg then 1 else 0)%nat
  ∧ (has_credentials cfg = true → accepts_login srv = false →
     deliveries (send_email srv subject body cfg).1 = 0%nat).
Proof.
  intros Hc.
  destruct (send_email_counts srv subject body cfg Hc)
    as (_ & _ & Hlogin & Hdel & _).
  split; [done|]. intros Hcred Hrej. rewrite Hdel, Hcred, Hrej.
  by destruct (accepts_connection srv).
Qed.

(** X18. What the call puts on the wire comes from the configuration: it
    connects to [SMTP_HOST] on [SMTP_PORT], or on 587 when the port is
    unset or 0; it logs in with [SMTP_USER] and [SMTP_PASSWORD]; and the
    message it hands over has the given subject and body and the
    configured sender and recipient. *)
Theorem send_email_uses_the_configuration srv subject body cfg :
  Forall (on_the_wire subject body cfg) (send_email srv subject body cfg).1
  ∧ (SMTP_PORT cfg = None ∨ SMTP_PORT cfg = Some 0 → port_of cfg = 587)
  ∧ (∀ p, SMTP_PORT cfg = Some p → p ≠ 0 → port_of cfg = p).
Proof.
  split; [apply send_email_wire|]. unfold port_of. split.
  - by intros [->| ->].
  - intros p -> Hp. by destruct (Z.eqb_spec p 0).
Qed.

End NotifierExtras.

(** ** More on the orchestrator *)

Section MoreOrchestratorFacts.
Context `{Library}.

Lemma load_env_result env :
  (∃ cfg, load_env env = ([], Ok cfg))
  ∨ ∃ var, load_env env = ([], Raise (EnvValueError var)).
Proof.
  pose proof (load_env_silent env) as Hs.
  destruct (load_env_obeys env) as [_ He].
  destruct (load_env env) as [t [cfg|e]]; simpl in *; subst t.
  - left. by exists cfg.
  - right. destruct (He e eq_refl) as [var ->]. by exists var.
Qed.

(** The five paths of an invocation whose configuration is [cfg], with
    the whole trace of each. *)
Lemma main_paths args w cfg :
  load_env (environ w) = ([], Ok cfg) →
  (∃ msg,
     http_reply w (url_of cfg) = inl msg
     ∧ main args w
       = ([HttpGet (url_of cfg); Print ("Failed to fetch forecast: " +:+ msg)],
          Raise (SystemExit 2)))
  ∨ (∃ data e,
       http_reply w (url_of cfg) = inr data
       ∧ analyze_forecast (clock_today w) data cfg = Raise e
       ∧ (e = NoDataError ∨ ∃ t, e = IsoformatError t)
       ∧ main args w = ([HttpGet (url_of cfg)], Raise e))
  ∨ (∃ data ordered runs,
       http_reply w (url_of cfg) = inr data
       ∧ analyze_forecast (clock_today w) data cfg = Ok (ordered, runs, [])
       ∧ main args w
         = (HttpGet (url_of cfg) :: Print "No suitable runs found. Summary:"
              :: ((λ d, Print (summary_line d)) <$> ordered), Ok tt))
  ∨ (∃ data ordered runs good_runs body,
       http_reply w (url_of cfg) = inr data
       ∧ analyze_forecast (clock_today w) data cfg
         = Ok (ordered, runs, good_runs)
       ∧ good_runs ≠ []
       ∧ format_message good_runs ordered cfg = Ok body
       ∧ if dry_run args
         then main args w
              = ([HttpGet (url_of cfg); Print alert_subject; Print body],
                 Ok tt)
         else ∃ ts rs,
                send_email (smtp w) alert_subject body cfg
                = (EnterSendEmail alert_subject body :: ts, rs)
                ∧ Forall (λ ev, is_smtp ev = true) ts
                ∧ (∀ e, rs = Raise e → e = ConfigError ∨ sending_failure e)
                ∧ main args w
                  = (HttpGet (url_of cfg) :: EnterSendEmail alert_subject body
                       :: ts
                       ++ [Print match rs with
                                 | Ok _ => "Alert email sent to "
                                           +:+ str_opt (EMAIL_TO cfg)
                                 | Raise e => "Failed to send email: "
                                              +:+ str_exn e
                                 end],
                     match rs with
                     | Ok _ => Ok tt
                     | Raise _ => Raise (SystemExit 3)
                     end)).
Proof.
  intros Hl.
  destruct (http_reply w (url_of cfg)) as [msg|data] eqn:Hr.
  { left. exists msg. split; [done|]. by apply main_fetch_failure. }
  right.
  destruct (analyze_forecast (clock_today w) data cfg)
    as [[[ordered runs] good_runs]|e] eqn:Ha.
  2:{ left. exists data, e. split_and!; auto.
      - by apply analyze_forecast_raises in Ha.
      - by apply main_analysis_error with (data := data). }
  right. destruct (decide (good_runs = [])) as [->|Hg].
  { left. exists data, ordered, runs. split_and!; auto.
    by apply main_no_good_runs with (data := data) (runs := runs). }
  right.
  destruct (format_message_total cfg ordered good_runs
              (good_runs_nonempty _ _ _ _ _ _ Ha)) as [body Hf].
  exists data, ordered, runs, good_runs, body. split_and!; auto.
  destruct args as [[]]; simpl.
  - by apply main_dry_run with (data := data) (runs := runs)
                               (good_runs := good_runs) (ordered := ordered).
  - destruct (send_email_shape (smtp w) alert_subject body cfg)
      as (ts & rs & Hs & Hsmtp & _ & Hrs).
    exists ts, rs. split_and!; auto.
    rewrite (main_send _ _ _ _ _ _ _ _ _ Hl Hr Ha Hg Hf Hs); [done|].
    intros e He. by destruct (Hrs e He) as [->|[msg ->]].
Qed.

Lemma count_app p t1 t2 : count p (t1 ++ t2) = (count p t1 + count p t2)%nat.
Proof. unfold count. by rewrite List.filter_app, length_app. Qed.

Lemma count_none p trace :
  Forall (λ ev, p ev = false) trace → count p trace = 0%nat.
Proof.
  unfold count. induction 1 as [|ev t Hev _ IH]; simpl; [done|].
  by rewrite Hev.
Qed.

Lemma count_smtp_gets trace :
  Forall (λ ev, is_smtp ev = true) trace → count is_get trace = 0%nat.
Proof.
  intros Hs. apply count_none. eapply Forall_impl; [exact Hs|]. by intros [].
Qed.

Lemma count_prints_gets {A} (f : A → string) (l : list A) :
  count is_get ((λ x, Print (f x)) <$> l) = 0%nat.
Proof. apply count_none, Forall_fmap, Forall_true. done. Qed.

End MoreOrchestratorFacts.

Section OrchestratorExtras.
Context `{Library}.

(** X19. A numeric setting that [float] or [int] rejects stops the program
    before anything else happens: no request, no output, no mail, and the
    [ValueError] leaves [main] uncaught with status 1, in dry-run mode
    too. *)
Theorem bad_environment_stops_before_the_network args w e :
  (load_env (environ w)).2 = Raise e →
  main args w = ([], Raise e)
  ∧ env_failure e
  ∧ exit_status (main args w).2 = 1.
Proof.
  intros He.
  destruct (load_env_result (environ w)) as [[cfg Hl]|[var Hl]];
    rewrite Hl in He; simpl in He; [discriminate|].
  injection He as <-. rewrite (main_env_error args w [] _ Hl).
  split_and!; [done| |done]. by exists var.
Qed.

(** X20. An invocation whose configuration loads sends exactly one request
    to the forecast source, first of all and to the address built from
    [LAT], [LON] and [FORECAST_DAYS]; a failed request is not repeated. *)
Theorem one_request_per_invocation args w cfg :
  load_env (environ w) = ([], Ok cfg) →
  head (main args w).1 = Some (HttpGet (url_of cfg))
  ∧ count is_get (main args w).1 = 1%nat.
Proof.
  intros Hl.
  destruct (main_paths args w cfg Hl)
    as [(msg & _ & ->)
       |[(data & e & _ & _ & _ & ->)
        |[(data & ordered & runs & _ & _ & ->)
         |(data & ordered & runs & good_runs & body & _ & _ & _ & _ & Hm)]]];
    try (split; reflexivity).
  - split; [reflexivity|]. cbn [fst].
    change (HttpGet ?u :: Print ?s :: ?t) with ([HttpGet u; Print s] ++ t).
    by rewrite count_app, count_prints_gets.
  - destruct (dry_run args).
    + rewrite Hm. split; reflexivity.
    + destruct Hm as (ts & rs & _ & Hsmtp & _ & ->). split; [reflexivity|].
      cbn [fst].
      change (HttpGet ?u :: ?e :: ?t) with ([HttpGet u; e] ++ t).
      by rewrite !count_app, (count_smtp_gets _ Hsmtp).
Qed.

(** X21. SMTP traffic occurs only when an alert is due: if the trace of
    an invocation holds an SMTP event, then the mode is not dry-run, the
    three mail settings are present and the analysis found a good run. *)
Theorem smtp_only_for_an_alert args w cfg :
  load_env (environ w) = ([], Ok cfg) →
  Exists (λ ev, is_smtp ev = true) (main args w).1 →
  dry_run args = false
  ∧ config_complete cfg = true
  ∧ ∃ data ordered runs good_runs,
      http_reply w (url_of cfg) = inr data
      ∧ analyze_forecast (clock_today w) data cfg
        = Ok (ordered, runs, good_runs)
      ∧ good_runs ≠ [].
Proof.
  intros Hl.
  assert (Hno : ∀ trace, Forall (λ ev, is_smtp ev = false) trace →
                  ¬ Exists (λ ev, is_smtp ev = true) trace).
  { intros trace Hall Hex. apply Exists_exists in Hex as (ev & Hin & Hev).
    rewrite Forall_forall in Hall. specialize (Hall ev Hin). congruence. }
  destruct (main_paths args w cfg Hl)
    as [(msg & _ & ->)
       |[(data & e & _ & _ & _ & ->)
        |[(data & ordered & runs & _ & _ & ->)
         |(data & ordered & runs & good_runs & body & Hr & Ha & Hg & _ & Hm)]]];
    intros Hex.
  - apply Hno in Hex; [done|]. by repeat constructor.
  - apply Hno in Hex; [done|]. by repeat constructor.
  - apply Hno in Hex; [done|]. cbn [fst]. repeat constructor.
    apply Forall_fmap, Forall_true. done.
  - destruct (dry_run args).
    + rewrite Hm in Hex. apply Hno in Hex; [done|]. by repeat constructor.
    + destruct Hm as (ts & rs & Hs & Hsmtp & _ & Hm). split; [done|].
      split; [|by exists data, ordered, runs, good_runs].
      destruct (config_complete cfg) eqn:Hc; [done|].
      rewrite send_email_incomplete in Hs by done.
      injection Hs as <- <-. rewrite Hm in Hex.
      apply Hno in Hex; [done|]. by repeat constructor.
Qed.

(** X22. Missing mail settings are noticed only when an alert is due: in
    normal mode with an incomplete configuration, a forecast without good
    run ends with status 0, and one with good runs ends with status 3
    after the request and the message of the [ValueError], without any
    SMTP traffic. *)
Theorem missing_mail_settings_fail_late w cfg data ordered runs good_runs :
  load_env (environ w) = ([], Ok cfg) →
  http_reply w (url_of cfg) = inr data →
  analyze_forecast (clock_today w) data cfg = Ok (ordered, runs, good_runs) →
  config_complete cfg = false →
  (good_runs = [] → exit_status (main {| dry_run := false |} w).2 = 0)
  ∧ (good_runs ≠ [] →
     ∃ body,
       format_message good_runs ordered cfg = Ok body
       ∧ main {| dry_run := false |} w
         = ([HttpGet (url_of cfg); EnterSendEmail alert_subject body;
             Print ("Failed to send email: " +:+ str_exn ConfigError)],
            Raise (SystemExit 3))).
Proof.
  intros Hl Hr Ha Hc. split.
  - intros ->. by rewrite (main_no_good_runs _ _ _ _ _ _ Hl Hr Ha).
  - intros Hg.
    destruct (format_message_total cfg ordered good_runs
                (good_runs_nonempty _ _ _ _ _ _ Ha)) as [body Hf].
    exists body. split; [done|].
    rewrite (main_send w cfg data ordered runs good_runs body
               [EnterSendEmail alert_subject body] (Raise ConfigError));
      auto using send_email_incomplete.
    by intros e [= <-].
Qed.


(** X24. Dry-run mode prints what normal mode would send: for the same
    world with good runs, the subject and body written to standard output
    in dry-run mode are the arguments of the one call of [send_email] in
    normal mode, and any message handed to the server carries them. *)
Theorem dry_run_prints_what_would_be_sent w cfg data ordered runs good_runs :
  load_env (environ w) = ([], Ok cfg) →
  http_reply w (url_of cfg) = inr data →
  analyze_forecast (clock_today w) data cfg = Ok (ordered, runs, good_runs) →
  good_runs ≠ [] →
  ∃ body,
    format_message good_runs ordered cfg = Ok body
    ∧ stdout (main {| dry_run := true |} w).1 = [alert_subject; body]
    ∧ EnterSendEmail alert_subject body ∈ (main {| dry_run := false |} w).1
    ∧ ∀ msg, SmtpSendMessage msg ∈ (main {| dry_run := false |} w).1 →
             msg = message_of alert_subject body cfg.
Proof.
  intros Hl Hr Ha Hg.
  destruct (format_message_total cfg ordered good_runs
              (good_runs_nonempty _ _ _ _ _ _ Ha)) as [body Hf].
  exists body. split; [done|].
  rewrite (main_dry_run _ _ _ _ _ _ _ Hl Hr Ha Hg Hf). split; [done|].
  destruct (send_email_shape (smtp w) alert_subject body cfg)
    as (ts & rs & Hs & Hsmtp & _ & Hrs).
  pose proof (send_email_wire (smtp w) alert_subject body cfg) as Hwire.
  rewrite Hs in Hwire. simpl in Hwire.
  rewrite (main_send _ _ _ _ _ _ _ _ _ Hl Hr Ha Hg Hf Hs); cycle 1.
  { intros e He. by destruct (Hrs e He) as [->|[msg ->]]. }
  cbn [fst]. split.
  - apply elem_of_cons; right. apply elem_of_cons; by left.
  - intros msg Hin.
    apply elem_of_cons in Hin as [?|Hin]; [done|].
    apply elem_of_app in Hin as [Hin|Hin].
    + rewrite Forall_forall in Hwire. exact (Hwire _ Hin).
    + apply list_elem_of_singleton in Hin. done.
Qed.

End OrchestratorExtras.

(** ** More on the configuration *)

Section LoaderExtras.
Context `{Library}.

(** X25. [load_env] succeeds exactly when each of the seven numeric
    settings, or its default when the variable is unset, is accepted by
    [float] or [int], and a non-empty [SMTP_PORT] by [int].  The mail
    settings are copied as they are, an unset one as [None], and never
    make loading fail; an unset or empty [SMTP_PORT] becomes [None]
    without being parsed. *)
Theorem load_env_succeeds_iff env :
  ((∃ cfg, load_env env = ([], Ok cfg)) ↔ env_parses env)
  ∧ ∀ cfg, load_env env = ([], Ok cfg) →
      SMTP_HOST cfg = env "SMTP_HOST"%string
      ∧ SMTP_USER cfg = env "SMTP_USER"%string
      ∧ SMTP_PASSWORD cfg = env "SMTP_PASSWORD"%string
      ∧ EMAIL_FROM cfg = env "EMAIL_FROM"%string
      ∧ EMAIL_TO cfg = env "EMAIL_TO"%string
      ∧ (truthy (env "SMTP_PORT"%string) = false → SMTP_PORT cfg = None)
      ∧ (truthy (env "SMTP_PORT"%string) = true →
         SMTP_PORT cfg
         = int_of_str (default "587"%string (env "SMTP_PORT"%string)))
      ∧ Some (MIN_WIND_KNOTS cfg)
        = float_of_str (default "12"%string (env "MIN_WIND_KNOTS"%string))
      ∧ Some (MAX_WIND_KNOTS cfg)
        = float_of_str (default "30"%string (env "MAX_WIND_KNOTS"%string))
      ∧ Some (MIN_HOURS_PER_DAY cfg)
        = int_of_str (default "6"%string (env "MIN_HOURS_PER_DAY"%string))
      ∧ Some (REQUIRED_CONSECUTIVE_DAYS cfg)
        = int_of_str
            (default "2"%string (env "REQUIRED_CONSECUTIVE_DAYS"%string))
      ∧ Some (FORECAST_DAYS cfg)
        = int_of_str (default "7"%string (env "FORECAST_DAYS"%string)).
Proof.
  unfold env_parses, numeric_settings, integer_settings, load_env,
    env_float, env_int.
  rewrite !Forall_cons, !Forall_nil. cbn [fst snd].
  destruct (float_of_str (default "54.6806"%string (env "LAT"%string)))
    as [lat|];
  destruct (float_of_str (default "18.5591"%string (env "LON"%string)))
    as [lon|];
  destruct (float_of_str (default "12"%string (env "MIN_WIND_KNOTS"%string)))
    as [lo|];
  destruct (float_of_str (default "30"%string (env "MAX_WIND_KNOTS"%string)))
    as [hi|];
  destruct (int_of_str (default "6"%string (env "MIN_HOURS_PER_DAY"%string)))
    as [hours|];
  destruct (int_of_str
              (default "2"%string (env "REQUIRED_CONSECUTIVE_DAYS"%string)))
    as [required|];
  destruct (int_of_str (default "7"%string (env "FORECAST_DAYS"%string)))
    as [days|];
  destruct (truthy (env "SMTP_PORT"%string));
  try destruct (int_of_str (default "587"%string (env "SMTP_PORT"%string)))
    as [port|];
  cbn;
  (split;
   [split;
    [intros [cfg Hl]; try discriminate Hl;
     split_and!; try done; eauto
    |intros Hp; try (eexists; reflexivity);
     exfalso; destruct Hp as (Hn & Hi & Hport);
     repeat match goal with
            | Hx : _ ∧ _ |- _ => destruct Hx
            | Hx : is_Some None |- _ => by destruct Hx
            | Hx : true = true → is_Some None |- _ =>
                by destruct (Hx eq_refl)
            end]
   |intros cfg Hl; try discriminate Hl; injection Hl as <-;
    split_and!; try done]).
Qed.

End LoaderExtras.

(** ** The properties on sample inputs *)

#[local] Existing Instance Reference.library.

Import Examples.

Example calendar_of_may_1 :
  Reference.ymd2ord 2024 5 1 = may_1
  ∧ Reference.isoformat may_1 = "2024-05-01"%string
  ∧ date <$> fromisoformat "2024-05-01T13:00" = Some may_1
  ∧ fromisoformat "2024-02-30T13:00" = None.
Proof. split_and!; vm_compute; reflexivity. Qed.

Example load_env_defaults :
  load_env no_env = ([], Ok default_cfg)
  ∧ load_env mail_env = ([], Ok mail_cfg).
Proof. split_and!; vm_compute; reflexivity. Qed.

Example week_is_analysed :
  analyze_forecast may_1 week default_cfg
  = Ok ([(739007, 7); (739008, 8); (739009, 0); (739010, 9); (739011, 10);
         (739012, 0); (739013, 0)],
        [[(739007, 7); (739008, 8)]; [(739010, 9); (739011, 10)]],
        [[(739007, 7); (739008, 8)]; [(739010, 9); (739011, 10)]]).
Proof. vm_compute; reflexivity. Qed.

(** Two days of wind inside the window: one good run over both days, one
    call of [send_email] with the alert subject, one message delivered. *)
Example two_windy_days_alert :
  let w := world_with mail_env (inr two_windy_days) willing_server in
  analyze_forecast may_1 two_windy_days mail_cfg
  = Ok ([(739007, 24); (739008, 24); (739009, 0); (739010, 0); (739011, 0);
         (739012, 0); (739013, 0)],
        [[(739007, 24); (739008, 24)]], [[(739007, 24); (739008, 24)]])
  ∧ send_calls (main {| dry_run := false |} w).1 = 1%nat
  ∧ deliveries (main {| dry_run := false |} w).1 = 1%nat
  ∧ (∃ body, EnterSendEmail alert_subject body
             ∈ (main {| dry_run := false |} w).1)
  ∧ exit_status (main {| dry_run := false |} w).2 = 0.
Proof.
  intros w. split_and!; try (vm_compute; reflexivity).
  eexists. vm_compute. apply elem_of_cons; right. apply elem_of_cons; left.
  reflexivity.
Qed.

(** Witness of C1 on the week of counts 7, 8, 0, 9, 10, 0, 0. *)
Lemma runs_are_maximal_blocks_witness :
  (find_runs default_cfg
     [(0, 7); (1, 8); (2, 0); (3, 9); (4, 10); (5, 0); (6, 0)]
   = [[(0, 7); (1, 8)]; [(3, 9); (4, 10)]]
   ∧ select_good default_cfg [[(0, 7); (1, 8)]; [(3, 9); (4, 10)]]
     = [[(0, 7); (1, 8)]; [(3, 9); (4, 10)]])
  ∧ ([[(739007, 7); (739008, 8)]; [(739010, 9); (739011, 10)]]
     = find_runs default_cfg
         [(739007, 7); (739008, 8); (739009, 0); (739010, 9);
          (739011, 10); (739012, 0); (739013, 0)]
     ∧ [[(739007, 7); (739008, 8)]; [(739010, 9); (739011, 10)]]
       = select_good default_cfg
           [[(739007, 7); (739008, 8)]; [(739010, 9); (739011, 10)]]).
Proof.
  destruct (runs_are_maximal_blocks default_cfg) as (_ & Hanalyzer & Hweek).
  split.
  - destruct (Hweek 0 1 2 3 4 5 6 eq_refl) as [Hruns Hgood].
    split; [exact Hruns|exact (Hgood eq_refl)].
  - refine (Hanalyzer may_1 week _ _ _ _).
    vm_compute; reflexivity.
Defined.

(** Witness of C2 on the sample week. *)
Lemma ordered_window_spans_horizon_witness :
  ∃ ordered runs good_runs,
    analyze_forecast may_1 week default_cfg = Ok (ordered, runs, good_runs)
    ∧ Z.of_nat (length ordered) = 0 `max` FORECAST_DAYS default_cfg
    ∧ (∀ i : nat, Z.of_nat i < FORECAST_DAYS default_cfg →
         ordered !! i
         = Some (may_1 + Z.of_nat i,
                 qualifying_hours default_cfg (may_1 + Z.of_nat i)
                   (zip (get_times week) (get_speeds week))))
    ∧ NoDup ordered.*1
    ∧ (∀ d h, (d, h) ∈ ordered →
         Forall (λ r, reading_on d r = false)
           (zip (get_times week) (get_speeds week)) →
         h = 0).
Proof.
  apply (ordered_window_spans_horizon may_1 week default_cfg).
  - vm_compute; discriminate.
  - vm_compute; discriminate.
  - unfold timestamps_parse. apply (bool_decide_unpack _).
    vm_compute. exact I.
Defined.

(** Witness of C3: 10 m/s at a window that starts at its speed in knots. *)
Lemma qualifying_window_inclusive_witness :
  qualifies edge_cfg Float.ten = true
  ∧ (Float.le (MIN_WIND_KNOTS edge_cfg) (mps_to_knots Float.ten)
     ∧ Float.le (mps_to_knots Float.ten) (MAX_WIND_KNOTS edge_cfg))
  ∧ ∀ d h, (d, h) ∈ [(739007, 7); (739008, 8); (739009, 0); (739010, 9);
                     (739011, 10); (739012, 0); (739013, 0)] →
      h = qualifying_hours default_cfg d (zip (get_times week) (get_speeds week)).
Proof.
  pose proof (qualifying_window_inclusive edge_cfg Float.ten)
    as (Hiff & Hedge & _).
  assert (Hq : qualifies edge_cfg Float.ten = true).
  { apply Hedge; [vm_compute; reflexivity|left; vm_compute; reflexivity]. }
  split; [exact Hq|]. split; [exact (proj1 Hiff Hq)|].
  intros d h.
  refine (proj2 (proj2 (qualifying_window_inclusive default_cfg Float.ten))
            may_1 week _ _ _ d h _).
  vm_compute; reflexivity.
Defined.

(** Counterexample to C5 as stated: with [MIN_HOURS_PER_DAY=0] a week
    whose counts are all zero is one run of seven days, and a good run. *)
Lemma zero_counts_form_a_run :
  load_env lenient_env = ([], Ok lenient_cfg)
  ∧ ∃ ordered runs good_runs,
      analyze_forecast may_1 still_week lenient_cfg
      = Ok (ordered, runs, good_runs)
      ∧ Forall (λ d : day, d.2 = 0) ordered
      ∧ ¬ (runs = [] ∧ good_runs = []).
Proof.
  split; [vm_compute; reflexivity|].
  eexists _, _, _. split; [vm_compute; reflexivity|].
  split; [by repeat constructor|]. intros [? _]. discriminate.
Qed.

(** Witness of C5 as amended: an empty reply raises, a still week under
    the default minimum of 6 hours gives no run. *)
Lemma no_data_error_exactly_when_empty_witness :
  analyze_forecast may_1 empty_reply default_cfg = Raise NoDataError
  ∧ ∃ ordered,
      analyze_forecast may_1 still_week default_cfg = Ok (ordered, [], []).
Proof.
  split.
  - apply (proj1 (no_data_error_exactly_when_empty
                    may_1 empty_reply default_cfg)).
    left. reflexivity.
  - destruct (proj2 (proj2 (no_data_error_exactly_when_empty
                              may_1 still_week default_cfg)))
      as (ordered & runs & good_runs & Hok & Hnone).
    + vm_compute; discriminate.
    + vm_compute; discriminate.
    + unfold timestamps_parse. apply (bool_decide_unpack _).
      vm_compute. exact I.
    + destruct Hnone as [-> ->].
      * vm_compute; discriminate.
      * assert (Hv : analyze_forecast may_1 still_week default_cfg
                     = Ok ([(739007, 0); (739008, 0); (739009, 0);
                            (739010, 0); (739011, 0); (739012, 0);
                            (739013, 0)], [], []))
          by (vm_compute; reflexivity).
        rewrite Hv in Hok. injection Hok as <- _ _. by repeat constructor.
      * exists ordered. exact Hok.
Defined.

(** Witness of C10: 48 speeds, 50 timestamps of which the last two are
    not dates. *)
Lemma mismatched_lengths_are_truncated_witness :
  length (get_times ragged) = 50%nat ∧ length (get_speeds ragged) = 48%nat
  ∧ ∃ ordered runs good_runs,
      analyze_forecast may_1 ragged default_cfg = Ok (ordered, runs, good_runs)
      ∧ analyze_forecast may_1 two_windy_days default_cfg
        = Ok (ordered, runs, good_runs)
      ∧ Z.of_nat (length ordered) = 7.
Proof.
  split; [reflexivity|]. split; [reflexivity|].
  destruct (mismatched_lengths_are_truncated may_1 ragged default_cfg)
    as (ordered & runs & good_runs & Hok & Htrim & _ & _ & Hlen & _).
  - vm_compute; discriminate.
  - vm_compute; discriminate.
  - vm_compute; discriminate.
  - unfold timestamps_parse. apply (bool_decide_unpack _).
    vm_compute. exact I.
  - exists ordered, runs, good_runs. split; [exact Hok|]. split; [|exact Hlen].
    assert (Hv : ∀ r, analyze_forecast may_1 ragged default_cfg = r →
                      analyze_forecast may_1 two_windy_days default_cfg = r).
    { intros r <-. vm_compute; reflexivity. }
    exact (Hv _ Hok).
Defined.

(** Witness of C7: no host, sender or recipient in the default
    configuration. *)
Lemma send_email_validates_before_connecting_witness :
  send_email willing_server alert_subject "report" default_cfg
  = ([EnterSendEmail alert_subject "report"], Raise ConfigError)
  ∧ Forall (λ ev, is_network ev = false)
      (send_email willing_server alert_subject "report" default_cfg).1.
Proof.
  apply (proj1 (send_email_validates_before_connecting
                  willing_server alert_subject "report" default_cfg)).
  left. reflexivity.
Defined.

(** Counterexample to C4 as stated: the fetch succeeds, the hourly
    arrays are empty, and the process ends with status 1 having printed
    nothing. *)
Lemma empty_arrays_exit_with_status_1 :
  let w := world_with no_env (inr empty_reply) willing_server in
  load_env (environ w) = ([], Ok default_cfg)
  ∧ http_reply w (url_of default_cfg) = inr empty_reply
  ∧ get_times empty_reply = [] ∧ get_speeds empty_reply = []
  ∧ (main {| dry_run := false |} w).2 = Raise NoDataError
  ∧ stdout (main {| dry_run := false |} w).1 = []
  ∧ exit_status (main {| dry_run := false |} w).2 = 1
  ∧ exit_status (main {| dry_run := false |} w).2 ≠ 2.
Proof.
  intros w. split_and!; try (vm_compute; reflexivity).
  vm_compute. discriminate.
Qed.

(** Witness of C4 as amended, on the same invocation in dry-run mode. *)
Lemma no_data_error_is_uncaught_witness :
  let w := world_with no_env (inr empty_reply) willing_server in
  main {| dry_run := true |} w
  = ([HttpGet (url_of default_cfg)], Raise NoDataError)
  ∧ stdout (main {| dry_run := true |} w).1 = []
  ∧ send_calls (main {| dry_run := true |} w).1 = 0%nat
  ∧ exit_status (main {| dry_run := true |} w).2 = 1.
Proof.
  intros w.
  apply (no_data_error_is_uncaught {| dry_run := true |} w default_cfg
           empty_reply).
  - vm_compute; reflexivity.
  - reflexivity.
  - left. reflexivity.
Defined.

(** Counterexample to C6 as stated: a reply without hourly data ends in
    none of the three outcomes; the status is 1. *)
Lemma missing_hourly_data_is_a_fourth_outcome :
  let args := {| dry_run := true |} in
  let w := world_with mail_env (inr bare_reply) willing_server in
  load_env (environ w) = ([], Ok mail_cfg)
  ∧ ¬ (fetch_failure_outcome args w mail_cfg
       ∨ no_good_runs_outcome args w mail_cfg
       ∨ good_runs_outcome args w mail_cfg)
  ∧ (main args w).2 = Raise NoDataError
  ∧ exit_status (main args w).2 = 1.
Proof.
  intros args w. split_and!.
  - vm_compute; reflexivity.
  - assert (Ha : ∀ data, @inr string forecast bare_reply = inr data →
                   analyze_forecast (clock_today w) data mail_cfg
                   = Raise NoDataError)
      by (by intros data [= <-]).
    intros [(msg & Hr & _)
           |[(data & ordered & runs & Hr & Hok & _)
            |(data & ordered & runs & good_runs & body & Hr & Hok & _)]].
    + discriminate Hr.
    + rewrite (Ha data Hr) in Hok. discriminate.
    + rewrite (Ha data Hr) in Hok. discriminate.
  - vm_compute; reflexivity.
  - vm_compute; reflexivity.
Qed.

(** Witness of C6 as amended: two windy days, mail settings present. *)
Lemma main_outcomes_witness :
  let args := {| dry_run := false |} in
  let w := world_with mail_env (inr two_windy_days) willing_server in
  fetch_failure_outcome args w mail_cfg ∨ no_good_runs_outcome args w mail_cfg
  ∨ good_runs_outcome args w mail_cfg ∨ analysis_error_outcome args w mail_cfg.
Proof.
  intros args w.
  assert (Hl : load_env (environ w) = ([], Ok mail_cfg))
    by (vm_compute; reflexivity).
  exact (proj1 (main_outcomes args w mail_cfg Hl)).
Defined.

(** Witness of C8: the same two windy days in dry-run mode. *)
Lemma dry_run_never_notifies_witness :
  let w := world_with mail_env (inr two_windy_days) willing_server in
  send_calls (main {| dry_run := true |} w).1 = 0%nat
  ∧ exit_status (main {| dry_run := true |} w).2 = 0
  ∧ ∃ body,
      format_message [[(739007, 24); (739008, 24)]]
        [(739007, 24); (739008, 24); (739009, 0); (739010, 0); (739011, 0);
         (739012, 0); (739013, 0)] mail_cfg = Ok body
      ∧ stdout (main {| dry_run := true |} w).1 = [alert_subject; body].
Proof.
  intros w.
  destruct (dry_run_never_notifies w) as (Hcalls & _ & Hout).
  split; [exact Hcalls|].
  refine (Hout mail_cfg two_windy_days _ [[(739007, 24); (739008, 24)]]
            [[(739007, 24); (739008, 24)]] _ _ _).
  - vm_compute; reflexivity.
  - reflexivity.
  - vm_compute; reflexivity.
Defined.

Import MoreExamples.

(** Witness of X1: 10 m/s. *)
Lemma mps_to_knots_odd_and_sign_preserving_witness :
  Float.leb Float.zero (mps_to_knots Float.ten) = true.
Proof.
  apply (proj2 (mps_to_knots_odd_and_sign_preserving Float.ten)).
  reflexivity.
Defined.

(** Witness of X3 on the sample week: its two runs start at days 0 and 3
    of the window. *)
Lemma runs_are_calendar_consecutive_witness :
  (∀ r, r ∈ [[(739007, 7); (739008, 8)]; [(739010, 9); (739011, 10)]] →
     ∃ i : nat,
       (i + length r ≤ Z.to_nat (FORECAST_DAYS default_cfg))%nat
       ∧ ∀ (j : nat) x, r !! j = Some x → x.1 = may_1 + Z.of_nat (i + j))
  ∧ (∀ (a b : nat) r r' x y,
       (a < b)%nat →
       [[(739007, 7); (739008, 8)]; [(739010, 9); (739011, 10)]] !! a
       = Some r →
       [[(739007, 7); (739008, 8)]; [(739010, 9); (739011, 10)]] !! b
       = Some r' →
       x ∈ r → y ∈ r' → x.1 + 1 < y.1).
Proof.
  refine (runs_are_calendar_consecutive may_1 week default_cfg _ _ _ _).
  vm_compute; reflexivity.
Defined.

(** Witness of X4: the first day of the sample week has 7 qualifying
    hours out of 24 readings. *)
Lemma counts_are_bounded_witness :
  0 ≤ 7
  ∧ 7 ≤ readings_on 739007 (zip (get_times week) (get_speeds week))
  ∧ readings_on 739007 (zip (get_times week) (get_speeds week))
    ≤ Z.of_nat (length (get_times week) `min` length (get_speeds week)).
Proof.
  refine (counts_are_bounded may_1 week default_cfg _ _ _ 739007 7 _ _).
  - vm_compute; reflexivity.
  - apply elem_of_cons. left. reflexivity.
Defined.

(** Witness of X5: the two windy days against the same readings read
    backwards, with a stale day and a day beyond the horizon added. *)
Lemma analysis_reads_the_window_only_witness :
  analyze_forecast may_1 two_windy_days default_cfg
  = analyze_forecast may_1 shuffled_days default_cfg.
Proof.
  apply analysis_reads_the_window_only.
  - vm_compute; discriminate.
  - vm_compute; discriminate.
  - vm_compute; discriminate.
  - vm_compute; discriminate.
  - unfold timestamps_parse. apply (bool_decide_unpack _). vm_compute. exact I.
  - unfold timestamps_parse. apply (bool_decide_unpack _). vm_compute. exact I.
  - assert (Hrev : List.filter (within_window default_cfg may_1)
                     (zip (get_times shuffled_days) (get_speeds shuffled_days))
                   = reverse
                       (List.filter (within_window default_cfg may_1)
                          (zip (get_times two_windy_days)
                             (get_speeds two_windy_days))))
      by (vm_compute; reflexivity).
    rewrite Hrev. symmetry. apply reverse_Permutation.
Defined.

(** Witness of X6: the second timestamp of the garbled reply. *)
Lemma first_rejected_timestamp_is_raised_witness :
  analyze_forecast may_1 garbled default_cfg
  = Raise (IsoformatError "yesterday").
Proof.
  apply (proj2 (first_rejected_timestamp_is_raised
                  may_1 garbled default_cfg "yesterday")).
  exists [("2024-05-01T00:00"%string, breeze)], breeze,
    [("n/a"%string, breeze)].
  split; [reflexivity|]. split; [|reflexivity].
  unfold timestamps_parse. apply (bool_decide_unpack _). vm_compute. exact I.
Defined.

(** Witness of X7: one required day keeps both runs of the sample week,
    eight required days in a window of seven keep none. *)
Lemma required_days_at_the_edges_witness :
  (∃ ordered runs,
     analyze_forecast may_1 week (with_days 6 1 7) = Ok (ordered, runs, runs))
  ∧ ∃ ordered runs,
      analyze_forecast may_1 week (with_days 6 8 7) = Ok (ordered, runs, []).
Proof.
  split.
  - destruct (analyze_forecast may_1 week (with_days 6 1 7))
      as [[[ordered runs] good_runs]|e] eqn:Ha; [|vm_compute in Ha; discriminate].
    rewrite (proj1 (required_days_at_the_edges may_1 week (with_days 6 1 7)
                      ordered runs good_runs Ha)); [eauto|].
    vm_compute; discriminate.
  - destruct (analyze_forecast may_1 week (with_days 6 8 7))
      as [[[ordered runs] good_runs]|e] eqn:Ha; [|vm_compute in Ha; discriminate].
    rewrite (proj2 (required_days_at_the_edges may_1 week (with_days 6 8 7)
                      ordered runs good_runs Ha)); [eauto|].
    vm_compute; reflexivity.
Defined.

(** Witness of X8: a still week without a daily minimum. *)
Lemma no_minimum_gives_one_run_witness :
  ∃ ordered good_runs,
    analyze_forecast may_1 still_week lenient_cfg
    = Ok (ordered, [ordered], good_runs).
Proof.
  destruct (analyze_forecast may_1 still_week lenient_cfg)
    as [[[ordered runs] good_runs]|e] eqn:Ha; [|vm_compute in Ha; discriminate].
  exists ordered, good_runs.
  rewrite (no_minimum_gives_one_run may_1 still_week lenient_cfg
             ordered runs good_runs Ha); [reflexivity| |].
  - vm_compute; discriminate.
  - vm_compute; reflexivity.
Defined.

(** Witness of X9: the sample week seen through a swapped window. *)
Lemma empty_wind_window_counts_nothing_witness :
  qualifies swapped_cfg breeze = false
  ∧ Forall (λ d : day, d.2 = 0)
      [(739007, 0); (739008, 0); (739009, 0); (739010, 0); (739011, 0);
       (739012, 0); (739013, 0)].
Proof.
  assert (Hw : Float.leb (MIN_WIND_KNOTS swapped_cfg)
                 (MAX_WIND_KNOTS swapped_cfg) = false)
    by (vm_compute; reflexivity).
  destruct (empty_wind_window_counts_nothing swapped_cfg Hw) as [Hq Hz].
  split; [apply Hq|].
  refine (Hz may_1 week _ [] [] _). vm_compute; reflexivity.
Defined.

(** Witness of X10: an empty run and no required day. *)
Lemma format_message_fails_only_on_an_empty_run_witness :
  format_message [[]] [] (with_days 6 0 7) = Raise IndexError.
Proof.
  apply (proj2 (format_message_fails_only_on_an_empty_run
                  [[]] [] (with_days 6 0 7) IndexError)).
  split; [reflexivity|]. split; [apply elem_of_cons; by left|].
  vm_compute; discriminate.
Defined.

(** Witness of X12 on the sample week. *)
Lemma report_lists_each_good_run_witness :
  ∃ matching body,
    Forall2 line_of_run
      [[(739007, 7); (739008, 8)]; [(739010, 9); (739011, 10)]] matching
    ∧ format_message
        [[(739007, 7); (739008, 8)]; [(739010, 9); (739011, 10)]]
        [(739007, 7); (739008, 8); (739009, 0); (739010, 9);
         (739011, 10); (739012, 0); (739013, 0)] default_cfg
      = Ok body.
Proof.
  destruct (report_lists_each_good_run may_1 week default_cfg
              [(739007, 7); (739008, 8); (739009, 0); (739010, 9);
               (739011, 10); (739012, 0); (739013, 0)]
              [[(739007, 7); (739008, 8)]; [(739010, 9); (739011, 10)]]
              [[(739007, 7); (739008, 8)]; [(739010, 9); (739011, 10)]])
    as (matching & Hlines & Hbody).
  - vm_compute; reflexivity.
  - exists matching. eexists. split; [exact Hlines|exact Hbody].
Defined.


(** Witness of X14: a server without EHLO or STARTTLS. *)
Lemma negotiation_failure_is_not_fatal_witness :
  (send_email plain_server alert_subject "report" mail_cfg).2
  = (send_email willing_server alert_subject "report" mail_cfg).2
  ∧ deliveries (send_email plain_server alert_subject "report" mail_cfg).1
    = deliveries (send_email willing_server alert_subject "report" mail_cfg).1.
Proof.
  apply (negotiation_failure_is_not_fatal plain_server willing_server);
    reflexivity.
Defined.

(** Witness of X15: the willing server advertises STARTTLS. *)
Lemma starttls_only_when_advertised_witness :
  count is_starttls
    (send_email willing_server alert_subject "report" mail_cfg).1 = 1%nat.
Proof.
  apply (starttls_only_when_advertised
           willing_server alert_subject "report" mail_cfg).
  reflexivity.
Defined.


(** Witness of X17: a rejected login. *)
Lemma login_only_with_both_credentials_witness :
  count is_login (send_email strict_server alert_subject "report" login_cfg).1
  = 1%nat
  ∧ deliveries (send_email strict_server alert_subject "report" login_cfg).1
    = 0%nat.
Proof.
  destruct (login_only_with_both_credentials
              strict_server alert_subject "report" login_cfg eq_refl)
    as [Hlogin Hnone].
  split; [exact Hlogin|]. apply Hnone; reflexivity.
Defined.

(** Witness of X18: port 0 stands for 587. *)
Lemma send_email_uses_the_configuration_witness :
  port_of login_cfg = 587 ∧ port_of mail_cfg = 587.
Proof.
  split.
  - apply (proj1 (proj2 (send_email_uses_the_configuration
                           willing_server alert_subject "report" login_cfg))).
    right. reflexivity.
  - apply (proj1 (proj2 (send_email_uses_the_configuration
                           willing_server alert_subject "report" mail_cfg))).
    left. reflexivity.
Defined.

(** Witness of X19: a latitude that is not a number, in dry-run mode. *)
Lemma bad_environment_stops_before_the_network_witness :
  let w := world_with bad_env (inr two_windy_days) willing_server in
  main {| dry_run := true |} w = ([], Raise (EnvValueError "LAT"))
  ∧ env_failure (EnvValueError "LAT")
  ∧ exit_status (main {| dry_run := true |} w).2 = 1.
Proof.
  intros w.
  apply (bad_environment_stops_before_the_network {| dry_run := true |} w).
  vm_compute; reflexivity.
Defined.

(** Witness of X20: a failed request. *)
Lemma one_request_per_invocation_witness :
  let w := world_with no_env (inl "503 Server Error"%string) willing_server in
  head (main {| dry_run := false |} w).1 = Some (HttpGet (url_of default_cfg))
  ∧ count is_get (main {| dry_run := false |} w).1 = 1%nat.
Proof.
  intros w.
  apply (one_request_per_invocation {| dry_run := false |} w default_cfg).
  vm_compute; reflexivity.
Defined.

(** Witness of X21: the alert of the two windy days. *)
Lemma smtp_only_for_an_alert_witness :
  let w := world_with mail_env (inr two_windy_days) willing_server in
  config_complete mail_cfg = true
  ∧ ∃ data ordered runs good_runs,
      http_reply w (url_of mail_cfg) = inr data
      ∧ analyze_forecast (clock_today w) data mail_cfg
        = Ok (ordered, runs, good_runs)
      ∧ good_runs ≠ [].
Proof.
  intros w.
  refine (proj2 (smtp_only_for_an_alert {| dry_run := false |} w mail_cfg _ _)).
  - vm_compute; reflexivity.
  - apply Exists_exists. exists SmtpQuit. split; [|reflexivity].
    vm_compute.
    repeat first [by (apply elem_of_cons; left) | apply elem_of_cons; right].
Defined.

(** Witness of X22: two windy days and no mail settings. *)
Lemma missing_mail_settings_fail_late_witness :
  let w := world_with no_env (inr two_windy_days) willing_server in
  ∃ body,
    format_message [[(739007, 24); (739008, 24)]]
      [(739007, 24); (739008, 24); (739009, 0); (739010, 0); (739011, 0);
       (739012, 0); (739013, 0)] default_cfg = Ok body
    ∧ main {| dry_run := false |} w
      = ([HttpGet (url_of default_cfg); EnterSendEmail alert_subject body;
          Print ("Failed to send email: " +:+ str_exn ConfigError)],
         Raise (SystemExit 3)).
Proof.
  intros w.
  refine (proj2 (missing_mail_settings_fail_late w default_cfg two_windy_days
                   _ [[(739007, 24); (739008, 24)]]
                   [[(739007, 24); (739008, 24)]] _ _ _ _) _).
  - vm_compute; reflexivity.
  - reflexivity.
  - vm_compute; reflexivity.
  - reflexivity.
  - discriminate.
Defined.


(** Witness of X24: the two windy days in both modes. *)
Lemma dry_run_prints_what_would_be_sent_witness :
  let w := world_with mail_env (inr two_windy_days) willing_server in
  ∃ body,
    stdout (main {| dry_run := true |} w).1 = [alert_subject; body]
    ∧ EnterSendEmail alert_subject body ∈ (main {| dry_run := false |} w).1.
Proof.
  intros w.
  destruct (dry_run_prints_what_would_be_sent w mail_cfg two_windy_days
              [(739007, 24); (739008, 24); (739009, 0); (739010, 0);
               (739011, 0); (739012, 0); (739013, 0)]
              [[(739007, 24); (739008, 24)]] [[(739007, 24); (739008, 24)]])
    as (body & _ & Hout & Hcall & _).
  - vm_compute; reflexivity.
  - reflexivity.
  - vm_compute; reflexivity.
  - discriminate.
  - exists body. split; [exact Hout|exact Hcall].
Defined.

(** Witness of X25: the empty environment loads, with no mail setting. *)
Lemma load_env_succeeds_iff_witness :
  env_parses no_env
  ∧ SMTP_HOST default_cfg = None ∧ SMTP_PORT default_cfg = None
  ∧ EMAIL_TO default_cfg = None.
Proof.
  destruct (load_env_succeeds_iff no_env) as [Hiff Hfields].
  assert (Hl : load_env no_env = ([], Ok default_cfg))
    by (vm_compute; reflexivity).
  split; [apply (proj1 Hiff); by exists default_cfg|].
  destruct (Hfields default_cfg Hl) as (Hh & _ & _ & _ & Hto & Hport & _).
  split; [exact Hh|]. split; [apply Hport; reflexivity|exact Hto].
Defined.
